(** * Conversational AI Builder: the Express backend (server/index.js)
      and the submit path of the React frontend

    A shallow embedding of the backend of the Vapi AI demo application:
    the assistant-id cache, the chat handler, the three-tier audio
    generation and the small maintenance endpoints, and of the health
    check and the submit handler of the App component, followed by the
    properties the specification states about them and by further
    properties of the code.

    JavaScript strings are sequences of UTF-16 code units, JSON data is a
    small inductive type of values, and every interaction with the outside
    (the provider, the TTS endpoint, the clock, the file system) is an
    answer of an environment that sees the history of the interaction. *)

From Stdlib Require Import QArith Ascii String.
From stdpp Require Import gmap strings list pretty.

(** ** JavaScript strings *)

(** A string is the list of its UTF-16 code units. *)
Abbreviation jsstring := (list N).

(** A literal of the source, written with ASCII characters. *)
Fixpoint lit (s : string) : jsstring :=
  match s with
  | EmptyString => []
  | String c r => N_of_ascii c :: lit r
  end.

(** [String.prototype.substring(0, n)]. *)
Definition substring0 (n : nat) (s : jsstring) : jsstring := take n s.

(** WhiteSpace and LineTerminator code units, the ones [trim] strips. *)
Definition is_js_space (c : N) : bool :=
  ((c =? 0x09) || (c =? 0x0A) || (c =? 0x0B) || (c =? 0x0C) || (c =? 0x0D)
   || (c =? 0x20) || (c =? 0xA0) || (c =? 0x1680)
   || ((0x2000 <=? c) && (c <=? 0x200A))
   || (c =? 0x2028) || (c =? 0x2029) || (c =? 0x202F) || (c =? 0x205F)
   || (c =? 0x3000) || (c =? 0xFEFF))%N.

Fixpoint trimStart (s : jsstring) : jsstring :=
  match s with
  | [] => []
  | c :: r => if is_js_space c then trimStart r else s
  end.

Definition trimEnd (s : jsstring) : jsstring := reverse (trimStart (reverse s)).

(** [String.prototype.trim]. *)
Definition trim (s : jsstring) : jsstring := trimEnd (trimStart s).

(** The decimal digits of a non-negative integer, as a template literal
    prints it (integers below 1e21 print without exponent). *)
Definition number_to_string (n : N) : jsstring := lit (pretty n).

(** *** encodeURIComponent *)

Definition in_range (lo hi c : N) : bool := ((lo <=? c) && (c <=? hi))%N.

(** uriUnreserved: letters, digits and the marks - _ . ! ~ * ' ( ) *)
Definition uri_unreserved (c : N) : bool :=
  in_range 0x41 0x5A c || in_range 0x61 0x7A c || in_range 0x30 0x39 c
  || (c =? 0x2D)%N || (c =? 0x5F)%N || (c =? 0x2E)%N || (c =? 0x21)%N
  || (c =? 0x7E)%N || (c =? 0x2A)%N || (c =? 0x27)%N || (c =? 0x28)%N
  || (c =? 0x29)%N.

Definition is_lead_surrogate (c : N) : bool := in_range 0xD800 0xDBFF c.
Definition is_trail_surrogate (c : N) : bool := in_range 0xDC00 0xDFFF c.

Definition hex_digit (d : N) : N :=
  (if d <? 10 then 0x30 + d else 0x41 + (d - 10))%N.

(** One octet as a percent sign and two upper-case hexadecimal digits. *)
Definition percent (b : N) : jsstring :=
  [0x25%N; hex_digit (b / 16); hex_digit (b mod 16)].

(** The UTF-8 octets of a code point. *)
Definition utf8 (cp : N) : list N :=
  (if cp <? 0x80 then [cp]
   else if cp <? 0x800 then [0xC0 + cp / 64; 0x80 + cp mod 64]
   else if cp <? 0x10000 then
     [0xE0 + cp / 4096; 0x80 + (cp / 64) mod 64; 0x80 + cp mod 64]
   else
     [0xF0 + cp / 262144; 0x80 + (cp / 4096) mod 64;
      0x80 + (cp / 64) mod 64; 0x80 + cp mod 64])%N.

Definition percent_encode (cp : N) : jsstring := concat (map percent (utf8 cp)).

(** The Encode operation of ECMA-262 with the unreserved set of
    encodeURIComponent; [None] is the URIError thrown on an unpaired
    surrogate. *)
Fixpoint encodeURIComponent (s : jsstring) : option jsstring :=
  match s with
  | [] => Some []
  | c :: r =>
      if uri_unreserved c then (c ::.) <$> encodeURIComponent r
      else if is_trail_surrogate c then None
      else if is_lead_surrogate c then
        match r with
        | d :: r' =>
            if is_trail_surrogate d then
              (percent_encode ((c - 0xD800) * 0x400 + (d - 0xDC00) + 0x10000)%N ++.)
                <$> encodeURIComponent r'
            else None
        | [] => None
        end
      else (percent_encode c ++.) <$> encodeURIComponent r
  end.

(** ** JSON values and JavaScript exceptions *)

(** The values a parsed JSON document (or a missing property) can hold.
    A finite number is kept as the rational it denotes; the server only
    tests numbers against zero and passes them on. [VInf] is Infinity
    (or -Infinity), which [JSON.parse] gives for a literal beyond the
    range of a double, such as 1e999. *)
#[warnings="-register-all"]
Inductive value :=
| VUndefined
| VNull
| VBool (b : bool)
| VNum (q : Q)
| VInf (negative : bool)
| VStr (s : jsstring)
| VArr (items : list value)
| VObj (fields : list (jsstring * value)).

(** ToBoolean. *)
Definition truthy (v : value) : bool :=
  match v with
  | VUndefined | VNull => false
  | VBool b => b
  | VNum q => negb (Qeq_bool q 0)
  | VInf _ => true
  | VStr s => negb (bool_decide (s = []))
  | VArr _ | VObj _ => true
  end.

Definition nullish (v : value) : bool :=
  match v with VUndefined | VNull => true | _ => false end.

(** [a || b] *)
Definition js_or (a b : value) : value := if truthy a then a else b.

Fixpoint assoc (k : jsstring) (fields : list (jsstring * value)) : option value :=
  match fields with
  | [] => None
  | (k', v) :: r => if bool_decide (k = k') then Some v else assoc k r
  end.

(** [JSON.parse(JSON.stringify(v))], the way a value travels between the
    browser and the server and back: a property whose value is undefined
    is left out, an undefined array element and an infinite number become
    null, everything else arrives as it was sent. *)
Fixpoint wire (v : value) : value :=
  match v with
  | VUndefined | VInf _ => VNull
  | VArr items => VArr (map wire items)
  | VObj fields =>
      VObj ((fix properties (l : list (jsstring * value)) : list (jsstring * value) :=
               match l with
               | [] => []
               | (k, VUndefined) :: r => properties r
               | (k, x) :: r => (k, wire x) :: properties r
               end) fields)
  | _ => v
  end.

(** [response.data] in the browser for the body that [res.json(v)] sends:
    the value as it comes out of JSON, or the empty string when [v] is
    undefined and nothing is sent. *)
Definition json_data (v : value) : value :=
  match v with
  | VUndefined => VStr []
  | _ => wire v
  end.

(** Whether ToString throws on the value, as in a template literal. An
    object of a JSON document has no callable property, so an own
    [toString] hides the inherited one and the conversion ends in a
    TypeError; an array joins the strings of its elements, skipping
    undefined and null. *)
Fixpoint to_string_throws (v : value) : bool :=
  match v with
  | VArr items => existsb to_string_throws items
  | VObj fields => bool_decide (is_Some (assoc (lit "toString") fields))
  | _ => false
  end.

Inductive exn :=
| AxiosError (response : option (Z * value))
| TypeError
| URIError
| FsError
| Error (message : jsstring).

Inductive result (A : Type) :=
| Ok (a : A)
| Throw (e : exn).
Arguments Ok {A} a.
Arguments Throw {A} e.

(** [v.name] for a property name that is neither an index, [length] nor a
    member of a built-in prototype: an own property of an object,
    [undefined] on any other value, a TypeError on [undefined] and [null]. *)
Definition get_field (v : value) (name : string) : result value :=
  match v with
  | VUndefined | VNull => Throw TypeError
  | VObj fields => Ok (default VUndefined (assoc (lit name) fields))
  | _ => Ok VUndefined
  end.

(** [v[i]] for an index [i]. *)
Definition get_index (v : value) (i : nat) : result value :=
  match v with
  | VUndefined | VNull => Throw TypeError
  | VObj fields => Ok (default VUndefined (assoc (number_to_string (N.of_nat i)) fields))
  | VArr items => Ok (default VUndefined (items !! i))
  | VStr s => Ok (from_option (fun c => VStr [c]) VUndefined (s !! i))
  | _ => Ok VUndefined
  end.

(** [v?.name] and [v?.[i]]: short-circuit on [undefined] and [null]. *)
Definition opt_field (v : value) (name : string) : value :=
  match get_field v name with Ok x => x | Throw _ => VUndefined end.

Definition opt_index (v : value) (i : nat) : value :=
  match get_index v i with Ok x => x | Throw _ => VUndefined end.

(** [error.response?.status] *)
Definition error_status (e : exn) : option Z :=
  match e with
  | AxiosError (Some (status, _)) => Some status
  | _ => None
  end.

(** [message.trim()], [text.substring(0, n)] and [encodeURIComponent(s)]:
    the string methods exist on strings only; a call on any other
    non-nullish value is a TypeError (the property is not a function). *)
Definition js_trim (v : value) : result jsstring :=
  match v with
  | VStr s => Ok (trim s)
  | _ => Throw TypeError
  end.

Definition js_substring0 (v : value) (n : nat) : result jsstring :=
  match v with
  | VStr s => Ok (substring0 n s)
  | _ => Throw TypeError
  end.

Definition js_encodeURIComponent (s : jsstring) : result jsstring :=
  match encodeURIComponent s with
  | Some e => Ok e
  | None => Throw URIError
  end.

(** ** The world of the server *)

(** What the server writes to a file: raw bytes, or the companion text of
    the demo tier, kept as the two values its template is built from. *)
Inductive content :=
| Buffer (bytes : list N)
| SpokenText (text : value) (generated : jsstring).

Abbreviation headers := (list (jsstring * jsstring)).

(** The calls the server makes to the outside, in the order it makes them. *)
Inductive event :=
| EvPost (url : jsstring) (data : value) (h : headers)
| EvGet (url : jsstring) (h : headers)
| EvNow
| EvMkdir (path : jsstring)
| EvWrite (path : jsstring) (c : content).

(** How axios settles a request: resolved with [response.data], or
    rejected with [error.response] ([None] for a timeout or a network
    error, where [error.response] is undefined). *)
Inductive settled (A : Type) :=
| Resolved (data : A)
| Rejected (response : option (Z * value)).
Arguments Resolved {A} data.
Arguments Rejected {A} response.

(** The environment: the process configuration and the answer of the
    outside to every call, given the calls made so far. *)
Record Env := {
  env_VAPI_API_KEY : option jsstring;
  __dirname : jsstring;
  http_post : list event -> jsstring -> value -> headers -> settled value;
  http_get : list event -> jsstring -> headers -> settled (list N);
  clock : list event -> N;
  toLocaleString : N -> jsstring;
  mkdir_ok : list event -> jsstring -> bool;
  write_ok : list event -> jsstring -> content -> bool
}.

(** The state of the process and of its disk. *)
Record World := {
  ASSISTANT_ID : value;
  audioFiles : gmap jsstring value;
  files : gmap jsstring content;
  dirs : gset jsstring;
  trace : list event
}.

(** The process as [node index.js] starts it. *)
Definition boot (disk_files : gmap jsstring content) (disk_dirs : gset jsstring) : World :=
  {| ASSISTANT_ID := VNull; audioFiles := ∅;
     files := disk_files; dirs := disk_dirs; trace := [] |}.

Definition log (ev : event) (w : World) : World :=
  {| ASSISTANT_ID := ASSISTANT_ID w; audioFiles := audioFiles w;
     files := files w; dirs := dirs w; trace := trace w ++ [ev] |}.

Definition set_ASSISTANT_ID (v : value) (w : World) : World :=
  {| ASSISTANT_ID := v; audioFiles := audioFiles w;
     files := files w; dirs := dirs w; trace := trace w |}.

Definition set_audioFiles (m : gmap jsstring value) (w : World) : World :=
  {| ASSISTANT_ID := ASSISTANT_ID w; audioFiles := m;
     files := files w; dirs := dirs w; trace := trace w |}.

Definition add_file (path : jsstring) (c : content) (w : World) : World :=
  {| ASSISTANT_ID := ASSISTANT_ID w; audioFiles := audioFiles w;
     files := <[path := c]> (files w); dirs := dirs w; trace := trace w |}.

Definition add_dir (path : jsstring) (w : World) : World :=
  {| ASSISTANT_ID := ASSISTANT_ID w; audioFiles := audioFiles w;
     files := files w; dirs := {[path]} ∪ dirs w; trace := trace w |}.

(** ** Computations: state and exceptions *)

Definition M (A : Type) : Type := World -> result A * World.

Definition ret {A} (a : A) : M A := fun w => (Ok a, w).

Definition throw {A} (e : exn) : M A := fun w => (Throw e, w).

Definition bind {A B} (m : M A) (k : A -> M B) : M B :=
  fun w =>
    match m w with
    | (Ok a, w') => k a w'
    | (Throw e, w') => (Throw e, w')
    end.

(** [try { m } catch (e) { h e }]: the state reached when [m] threw is kept. *)
Definition try_catch {A} (m : M A) (h : exn -> M A) : M A :=
  fun w =>
    match m w with
    | (Ok a, w') => (Ok a, w')
    | (Throw e, w') => h e w'
    end.

Definition lift {A} (r : result A) : M A := fun w => (r, w).

Declare Scope js_scope.
Delimit Scope js_scope with js.
Notation "'let*' x ':=' m 'in' k" := (bind m (fun x => k))
  (at level 10, x name, m at level 100, k at level 200) : js_scope.
Notation "m ';;;' k" := (bind m (fun _ => k))
  (at level 100, k at level 200, right associativity) : js_scope.
Local Open Scope js_scope.

(** ** server/index.js *)

Section Server.

Variable env : Env.

(** *** Primitive effects *)

(** [Date.now()] *)
Definition Date_now : M N :=
  fun w => (Ok (clock env (trace w)), log EvNow w).

(** [await axios.post(url, data, { headers })] *)
Definition axios_post (url : jsstring) (data : value) (h : headers) : M value :=
  fun w =>
    match http_post env (trace w) url data h with
    | Resolved d => (Ok d, log (EvPost url data h) w)
    | Rejected r => (Throw (AxiosError r), log (EvPost url data h) w)
    end.

(** [await axios.get(url, { responseType: 'arraybuffer', headers })] *)
Definition axios_get (url : jsstring) (h : headers) : M (list N) :=
  fun w =>
    match http_get env (trace w) url h with
    | Resolved d => (Ok d, log (EvGet url h) w)
    | Rejected r => (Throw (AxiosError r), log (EvGet url h) w)
    end.

(** [fs.existsSync(path)] for a directory *)
Definition fs_existsSync (path : jsstring) : M bool :=
  fun w => (Ok (bool_decide (path ∈ dirs w)), w).

(** [fs.mkdirSync(path, { recursive: true })] *)
Definition fs_mkdirSync (path : jsstring) : M unit :=
  fun w =>
    if mkdir_ok env (trace w) path
    then (Ok tt, add_dir path (log (EvMkdir path) w))
    else (Throw FsError, log (EvMkdir path) w).

(** [fs.writeFileSync(path, c)] *)
Definition fs_writeFileSync (path : jsstring) (c : content) : M unit :=
  fun w =>
    if write_ok env (trace w) path c
    then (Ok tt, add_file path c (log (EvWrite path c) w))
    else (Throw FsError, log (EvWrite path c) w).

(** [path.join] of segments that need no normalisation: a directory and a
    name without separators or dots to resolve, as every name the server
    hands out is. *)
Definition path_join (a b : jsstring) : jsstring := a ++ lit "/" ++ b.

(** *** Configuration *)

Definition VAPI_API_KEY : jsstring :=
  match env_VAPI_API_KEY env with
  | Some k => if bool_decide (k = []) then lit "44a43177-eed7-4ccf-a2f7-3d42a94507be" else k
  | None => lit "44a43177-eed7-4ccf-a2f7-3d42a94507be"
  end.

Definition VAPI_BASE_URL : jsstring := lit "https://api.vapi.ai".

Definition vapi_headers : headers :=
  [(lit "Authorization", lit "Bearer " ++ VAPI_API_KEY);
   (lit "Content-Type", lit "application/json")].

Definition audio_dir : jsstring := path_join (__dirname env) (lit "public/audio").

(** *** Responses *)

Inductive payload :=
| Json (v : value)
| SendFile (c : content)
| NotFound.

Record Response := { status : Z; body : payload }.

(** An object literal. *)
Definition obj (fields : list (string * value)) : value :=
  VObj (map (fun kv => (lit kv.1, kv.2)) fields).

Definition str (s : string) : value := VStr (lit s).

(** [res.status(code).json(v)]; [res.json(v)] is [json 200 v]. *)
Definition json (code : Z) (v : value) : Response :=
  {| status := code; body := Json v |}.

(** *** GET /api/health *)

Definition get_api_health : M Response :=
  fun w =>
    (Ok (json 200 (obj [("status", str "ok");
                        ("message", str "Server is running");
                        ("aiProvider", str "Vapi AI");
                        ("hasVapiKey", VBool (truthy (VStr VAPI_API_KEY)));
                        ("assistantId", ASSISTANT_ID w)])), w).

(** *** getOrCreateAssistant *)

Definition assistant_config : value :=
  obj [("name", str "Conversational AI Assistant");
       ("firstMessage", str "Hello! I'm your AI assistant. How can I help you today?");
       ("model", obj [("provider", str "openai");
                      ("model", str "gpt-3.5-turbo");
                      ("temperature", VNum (7 # 10));
                      ("messages", VArr [obj [("role", str "system");
                                              ("content", str "You are a helpful, friendly, and knowledgeable AI assistant. Provide clear, concise, and engaging responses. Keep your answers informative but not too long.")]])]);
       ("voice", obj [("provider", str "11labs");
                      ("voiceId", str "21m00Tcm4TlvDq8ikWAM")])].

Definition assistant_url : jsstring := VAPI_BASE_URL ++ lit "/assistant".
Definition chat_url : jsstring := VAPI_BASE_URL ++ lit "/chat".

Definition getOrCreateAssistant : M value :=
  fun w =>
    if truthy (ASSISTANT_ID w) then (Ok (ASSISTANT_ID w), w)
    else
      try_catch
        (let* data := axios_post assistant_url assistant_config vapi_headers in
         let* id := lift (get_field data "id") in
         fun w' => (Ok id, set_ASSISTANT_ID id w'))
        (fun error => throw error) w.

(** *** generateAudio *)

(** The MP3 header, then the three rows of eight zero bytes of frame data. *)
Definition mp3Header : list N :=
  [0xFF; 0xFB; 0x90; 0x00]%N ++ repeat 0x00%N (3 * 8).

Definition minimalMp3 : list N :=
  [0xFF; 0xFB; 0x90; 0x00; 0x00; 0x00; 0x00; 0x00]%N.

Definition tts_url (encodedText : jsstring) : jsstring :=
  lit "https://translate.google.com/translate_tts?ie=UTF-8&q="
  ++ encodedText ++ lit "&tl=en&client=tw-ob".

Definition tts_headers : headers :=
  [(lit "User-Agent",
    lit "Mozilla/5.0 (Windows NT 10.0; Win64; x64) AppleWebKit/537.36 (KHTML, like Gecko) Chrome/91.0.4472.124 Safari/537.36")].

Definition response_name (t : N) : jsstring :=
  lit "response_" ++ number_to_string t ++ lit ".mp3".

Definition response_text_name (t : N) : jsstring :=
  lit "response_text_" ++ number_to_string t ++ lit ".txt".

Definition fallback_name (t : N) : jsstring :=
  lit "fallback_" ++ number_to_string t ++ lit ".mp3".

(** The primary tier: Google Translate TTS. *)
Definition tts_tier (text : value) (audioFileName audioPath : jsstring) : M jsstring :=
  let* head := lift (js_substring0 text 200) in
  let* encodedText := lift (js_encodeURIComponent head) in
  let* data := axios_get (tts_url encodedText) tts_headers in
  fs_writeFileSync audioPath (Buffer data) ;;;
  ret audioFileName.

(** The secondary tier: the demo MP3 and its companion text file. The
    template literal of the text file converts the text to a string
    before it reads the clock for the date. *)
Definition demo_tier (text : value) (audioFileName audioPath : jsstring) : M jsstring :=
  fs_writeFileSync audioPath (Buffer mp3Header) ;;;
  let* t := Date_now in
  let textPath := path_join audio_dir (response_text_name t) in
  (if to_string_throws text then throw TypeError else ret tt) ;;;
  let* generated := Date_now in
  fs_writeFileSync textPath (SpokenText text (toLocaleString env generated)) ;;;
  ret audioFileName.

(** The final tier: the minimal MP3 under a name of its own. *)
Definition fallback_tier : M jsstring :=
  try_catch
    (let* t := Date_now in
     let audioFileName := fallback_name t in
     let audioPath := path_join audio_dir audioFileName in
     fs_writeFileSync audioPath (Buffer minimalMp3) ;;;
     ret audioFileName)
    (fun fallbackError => throw (Error (lit "Failed to generate audio"))).

(** The function itself: the outer [try] with the set-up and the first
    two tiers, the inner [catch] that turns to the demo tier, the outer
    [catch] that turns to the final tier. *)
Definition generateAudio (text : value) : M jsstring :=
  try_catch
    (let* t := Date_now in
     let audioFileName := response_name t in
     let audioPath := path_join audio_dir audioFileName in
     let* present := fs_existsSync audio_dir in
     (if negb present then fs_mkdirSync audio_dir else ret tt) ;;;
     try_catch
       (tts_tier text audioFileName audioPath)
       (fun apiError => demo_tier text audioFileName audioPath))
    (fun error => fallback_tier).

(** *** POST /api/chat

    The handler as it runs when no other request is served between its
    awaits. *)

Definition no_response_text : value := str "Sorry, I couldn't generate a response.".

Definition bad_request_text : value :=
  str "I had trouble understanding your request. Could you please rephrase it?".
Definition auth_issue_text : value :=
  str "There seems to be an authentication issue with the AI service. Please try again.".
Definition rate_limit_text : value :=
  str "I'm receiving a lot of requests right now. Please wait a moment and try again.".
Definition difficulties_text : value :=
  str "I'm experiencing some technical difficulties. Please try again in a moment.".

(** The body of a request sent to the provider's chat endpoint. *)
Definition chat_payload (assistantId : value) (input : jsstring) : value :=
  obj [("assistantId", assistantId); ("input", VStr input)].

(** The [catch] branch of the handler. *)
Definition chat_error_response (error : exn) : Response :=
  match error_status error with
  | Some 400%Z => json 200 (obj [("response", bad_request_text); ("audioFileName", VNull)])
  | Some 401%Z => json 200 (obj [("response", auth_issue_text); ("audioFileName", VNull)])
  | Some 429%Z => json 200 (obj [("response", rate_limit_text); ("audioFileName", VNull)])
  | _ => json 200 (obj [("response", difficulties_text); ("audioFileName", VNull)])
  end.

Definition post_api_chat (req_body : value) : M Response :=
  try_catch
    (let* message := lift (get_field req_body "message") in
     let* systemMessage := lift (get_field req_body "systemMessage") in
     if negb (truthy message) then
       ret (json 400 (obj [("error", str "Message is required")]))
     else
       let* assistantId := getOrCreateAssistant in
       let* input := lift (js_trim message) in
       let* vapiResponse := axios_post chat_url (chat_payload assistantId input) vapi_headers in
       let* output := lift (get_field vapiResponse "output") in
       let assistantMessage :=
         js_or (opt_field (opt_index output 0) "content") no_response_text in
       let* audioFileName :=
         try_catch
           (let* name := generateAudio assistantMessage in ret (VStr name))
           (fun audioError => ret VNull) in
       let* chatId := lift (get_field vapiResponse "id") in
       let* cost := lift (get_field vapiResponse "cost") in
       ret (json 200 (obj [("response", assistantMessage);
                           ("audioFileName", audioFileName);
                           ("chatId", chatId);
                           ("cost", js_or cost (VNum 0))])))
    (fun error => ret (chat_error_response error)).

(** *** The remaining endpoints *)

Definition audio_name (t : N) : jsstring :=
  lit "audio_" ++ number_to_string t ++ lit ".mp3".

(** POST /api/audio/generate *)
Definition post_api_audio_generate (req_body : value) : M Response :=
  try_catch
    (let* text := lift (get_field req_body "text") in
     if negb (truthy text) then
       ret (json 400 (obj [("error", str "Text is required")]))
     else
       let* t := Date_now in
       let audioFileName := audio_name t in
       fun w =>
         (Ok (json 200 (obj [("audioFileName", VStr audioFileName)])),
          set_audioFiles (<[audioFileName := text]> (audioFiles w)) w))
    (fun error => ret (json 500 (obj [("error", str "Failed to generate audio")]))).

(** GET /api/audio/:filename, for a file name as the server hands them
    out: one segment that does not start with a dot, so that [path.join]
    has nothing to resolve and [res.sendFile] sends the file when it is
    there. *)
Definition get_api_audio (filename : jsstring) : M Response :=
  fun w =>
    match audioFiles w !! filename with
    | Some text =>
        (Ok (json 200 (obj [("message", str "Audio placeholder"); ("text", text)])), w)
    | None =>
        match files w !! path_join audio_dir filename with
        | Some c => (Ok {| status := 200; body := SendFile c |}, w)
        | None => (Ok (json 404 (obj [("error", str "Audio file not found")])), w)
        end
    end.

(** GET /audio/:filename, the static mapping of public/audio, for a
    file name of the same kind *)
Definition get_static_audio (filename : jsstring) : M Response :=
  fun w =>
    match files w !! path_join audio_dir filename with
    | Some c => (Ok {| status := 200; body := SendFile c |}, w)
    | None => (Ok {| status := 404; body := NotFound |}, w)
    end.

(** DELETE /api/cleanup *)
Definition delete_api_cleanup : M Response :=
  fun w => (Ok (json 200 (obj [("message", str "Cleanup successful")])),
            set_audioFiles ∅ w).

(** GET /api/config *)
Definition get_api_config : M Response :=
  fun w =>
    (Ok (json 200 (obj [("message", str "Vapi AI Configuration");
                        ("apiConfigured", VBool (truthy (VStr VAPI_API_KEY)));
                        ("baseUrl", VStr VAPI_BASE_URL);
                        ("assistantId", ASSISTANT_ID w)])), w).

(** *** The routes *)

Inductive request :=
| GET_api_health
| POST_api_chat (req_body : value)
| POST_api_audio_generate (req_body : value)
| GET_api_audio (filename : jsstring)
| GET_audio (filename : jsstring)
| DELETE_api_cleanup
| GET_api_config.

Definition route (r : request) : M Response :=
  match r with
  | GET_api_health => get_api_health
  | POST_api_chat b => post_api_chat b
  | POST_api_audio_generate b => post_api_audio_generate b
  | GET_api_audio f => get_api_audio f
  | GET_audio f => get_static_audio f
  | DELETE_api_cleanup => delete_api_cleanup
  | GET_api_config => get_api_config
  end.

Definition is_chat (r : request) : bool :=
  match r with POST_api_chat _ => true | _ => false end.

(** The world after the server has answered a sequence of requests, one
    after the other. *)
Fixpoint serve (rs : list request) (w : World) : World :=
  match rs with
  | [] => w
  | r :: rs' => serve rs' (route r w).2
  end.

End Server.

(** ** Vocabulary of the statements *)

(** A field of a JSON response. *)
Definition field_of (r : Response) (name : string) : value :=
  match body r with
  | Json v => opt_field v name
  | _ => VUndefined
  end.


(** The text the handler takes from a reply of the chat endpoint. *)
Definition reply_text (d : value) : value :=
  js_or (opt_field (opt_index (opt_field d "output") 0) "content") no_response_text.

(** The response of the handler on its success path. *)
Definition success_response (d audioFileName : value) : Response :=
  json 200 (obj [("response", reply_text d);
                 ("audioFileName", audioFileName);
                 ("chatId", opt_field d "id");
                 ("cost", js_or (opt_field d "cost") (VNum 0))]).

(** The fixed text of each failure mode, by the status of the rejection. *)
Definition failure_text (status : option Z) : value :=
  match status with
  | Some 400%Z => bad_request_text
  | Some 401%Z => auth_issue_text
  | Some 429%Z => rate_limit_text
  | _ => difficulties_text
  end.

Definition failure_response (status : option Z) : Response :=
  json 200 (obj [("response", failure_text status); ("audioFileName", VNull)]).

(** The provider rejects the request of this chat call: the creation of
    the assistant, or else the chat turn. *)
Definition provider_rejects (env : Env) (w : World) (message : value)
    (r : option (Z * value)) : Prop :=
  match getOrCreateAssistant env w with
  | (Throw e, _) => e = AxiosError r
  | (Ok assistantId, w1) =>
      exists input, js_trim message = Ok input /\
        http_post env (trace w1) chat_url (chat_payload assistantId input)
          (vapi_headers env) = Rejected r
  end.



Definition is_creation (ev : event) : bool :=
  match ev with
  | EvPost url _ _ => bool_decide (url = assistant_url)
  | _ => false
  end.

(** The number of assistant-creation requests in a history. *)
Definition creation_requests (h : list event) : nat :=
  length (filter (fun ev => is_creation ev = true) h).

(** The world in which the tiers of [generateAudio] start: the clock has
    been read and the audio directory is there. *)
Definition after_setup (env : Env) (w : World) : World :=
  if bool_decide (audio_dir env ∈ dirs w) then log EvNow w
  else add_dir (audio_dir env) (log (EvMkdir (audio_dir env)) (log EvNow w)).

(** The file a tier of [generateAudio] leaves under the name it returns. *)
Inductive produced_by (env : Env) : jsstring -> content -> Prop :=
| by_primary t h url data :
    http_get env h url tts_headers = Resolved data ->
    produced_by env (response_name t) (Buffer data)
| by_secondary t :
    produced_by env (response_name t) (Buffer mp3Header)
| by_tertiary t :
    produced_by env (fallback_name t) (Buffer minimalMp3).








(** Every clock reading differs from the readings made earlier. *)
Definition clock_advances (env : Env) : Prop :=
  forall h h', (h `prefix_of` h') -> h <> h' -> clock env h <> clock env h'.

(** [P] holds of every call [m] makes to the outside. *)
Definition emits {A} (P : event -> Prop) (m : M A) : Prop :=
  forall w, exists new, trace (m w).2 = trace w ++ new /\ Forall P new.

(** The calls of [generateAudio]: clock readings, directory creation,
    file writes, and GET requests that satisfy [get_ok]. *)
Definition audio_call (get_ok : jsstring -> headers -> Prop) (ev : event) : Prop :=
  match ev with
  | EvPost _ _ _ => False
  | EvGet url h => get_ok url h
  | _ => True
  end.

(** The GET requests of the primary tier for [text]: the URL carries the
    encoding of the first 200 code units. *)
Definition tts_request_of (text : value) (url : jsstring) (h : headers) : Prop :=
  exists head enc,
    js_substring0 text 200 = Ok head /\
    encodeURIComponent head = Some enc /\
    url = tts_url enc /\ h = tts_headers.

(** [m] leaves the component [f] of the world as it found it. *)
Definition stable {A X} (f : World -> X) (m : M A) : Prop :=
  forall w, f (m w).2 = f w.

(** ** Environments of the examples *)

Definition stub_chat_reply : value :=
  obj [("id", str "c1");
       ("output", VArr [obj [("content", str "Hi there!")]]);
       ("cost", VNum (2 # 1000))].

(** A provider that creates the assistant and answers every chat turn
    with the stub reply, a TTS endpoint that answers, a disk that
    accepts every write, a clock that ticks with every call. *)
Definition stub_env : Env :=
  {| env_VAPI_API_KEY := None;
     __dirname := lit "/srv/server";
     http_post := fun _ url _ _ =>
       if bool_decide (url = assistant_url)
       then Resolved (obj [("id", str "asst_1")])
       else Resolved stub_chat_reply;
     http_get := fun _ _ _ => Resolved [0xFF; 0xF3]%N;
     clock := fun h => (1700000000000 + N.of_nat (length h))%N;
     toLocaleString := number_to_string;
     mkdir_ok := fun _ _ => true;
     write_ok := fun _ _ _ => true |}.

(** The provider rejects every request with the given status. *)
Definition rejecting_env (status : Z) : Env :=
  {| env_VAPI_API_KEY := env_VAPI_API_KEY stub_env;
     __dirname := __dirname stub_env;
     http_post := fun _ _ _ _ => Rejected (Some (status, VNull));
     http_get := http_get stub_env;
     clock := clock stub_env;
     toLocaleString := toLocaleString stub_env;
     mkdir_ok := mkdir_ok stub_env;
     write_ok := write_ok stub_env |}.


(** Two calls within the same millisecond. *)
Definition same_millisecond_env : Env :=
  {| env_VAPI_API_KEY := env_VAPI_API_KEY stub_env;
     __dirname := __dirname stub_env;
     http_post := http_post stub_env;
     http_get := http_get stub_env;
     clock := fun _ => 1700000000000%N;
     toLocaleString := toLocaleString stub_env;
     mkdir_ok := mkdir_ok stub_env;
     write_ok := write_ok stub_env |}.



(** The provider answers a chat turn with the content 1e999. *)
Definition infinite_chat_reply : value :=
  obj [("id", str "c1");
       ("output", VArr [obj [("content", VInf false)]]);
       ("cost", VNum (2 # 1000))].

Definition infinite_reply_env : Env :=
  {| env_VAPI_API_KEY := env_VAPI_API_KEY stub_env;
     __dirname := __dirname stub_env;
     http_post := fun _ url _ _ =>
       if bool_decide (url = assistant_url)
       then Resolved (obj [("id", str "asst_1")])
       else Resolved infinite_chat_reply;
     http_get := http_get stub_env;
     clock := clock stub_env;
     toLocaleString := toLocaleString stub_env;
     mkdir_ok := mkdir_ok stub_env;
     write_ok := write_ok stub_env |}.




Definition fresh_world : World := boot ∅ ∅.

Definition hello_body : value := obj [("message", str "Hello")].

(** The world after a first, successful call of [getOrCreateAssistant]. *)
Definition created_world : World := (getOrCreateAssistant stub_env fresh_world).2.

(** ** Further vocabulary *)

Definition is_chat_request (ev : event) : bool :=
  match ev with
  | EvPost url _ _ => bool_decide (url = chat_url)
  | _ => false
  end.

(** The number of chat turns sent to the provider in a history. *)
Definition chat_requests (h : list event) : nat :=
  length (filter (fun ev => is_chat_request ev = true) h).

Definition is_post (ev : event) : bool :=
  match ev with EvPost _ _ _ => true | _ => false end.

Definition is_get (ev : event) : bool :=
  match ev with EvGet _ _ => true | _ => false end.

(** The characters [encodeURIComponent] lets through or produces: the
    unreserved ones and the percent sign. None of them separates the
    parameters of a query. *)
Definition uri_safe (c : N) : bool := uri_unreserved c || (c =? 0x25)%N.

(** The code units of a JavaScript string are 16-bit. *)
Definition utf16 (s : jsstring) : Prop := Forall (fun c => (c < 0x10000)%N) s.

(** [R] relates the world before every run of [m] to the world after. *)
Definition keeps {A} (R : World -> World -> Prop) (m : M A) : Prop :=
  forall w, R w (m w).2.

(** From [w] to [w'] the process memory is the same and the disk has
    lost nothing. *)
Definition frame (w w' : World) : Prop :=
  ASSISTANT_ID w' = ASSISTANT_ID w /\
  audioFiles w' = audioFiles w /\
  dom (files w) ⊆ dom (files w') /\
  dirs w ⊆ dirs w'.

(** From [w] to [w'] the disk has lost nothing. *)
Definition disk_grows (w w' : World) : Prop :=
  dom (files w) ⊆ dom (files w') /\ dirs w ⊆ dirs w'.

(** The disk accepts every write and every directory. *)
Definition disk_accepts (env : Env) : Prop :=
  (forall h path c, write_ok env h path c = true) /\
  (forall h path, mkdir_ok env h path = true).

(** The TTS endpoint answers no request. *)
Definition tts_down (env : Env) : Prop :=
  forall h url hd, exists r, http_get env h url hd = Rejected r.

(** Every key of the placeholder map is a name of POST /api/audio/generate. *)
Definition placeholder_names (w : World) : Prop :=
  forall k, is_Some (audioFiles w !! k) -> exists t, k = audio_name t.

(** The file names the server hands out: the placeholders of
    POST /api/audio/generate and the names [generateAudio] returns. *)
Definition handed_out (filename : jsstring) : Prop :=
  exists t,
    filename = audio_name t \/ filename = response_name t \/ filename = fallback_name t.

(** The cache holds null or an id the provider gave to a creation request. *)
Definition id_from_provider (env : Env) (id : value) : Prop :=
  id = VNull \/
  exists h d,
    http_post env h assistant_url assistant_config (vapi_headers env) = Resolved d /\
    get_field d "id" = Ok id.

(** ** The frontend: the App component *)

Module App.

Inductive ServerStatus := checking | connected | disconnected.

(** How axios settles a request of the browser: resolved with
    [response.data] on a 2xx status, rejected with [error.response]
    and [error.code] otherwise. *)
Inductive outcome :=
| Resolved (data : value)
| Rejected (response : option (Z * value)) (code : option jsstring).

(** The object [handleSubmit] stores. [audioUrl] is null ([None]) or the
    URL [`${API_BASE_URL}/audio/${audioFileName}`], kept as the
    audioFileName it is built from. *)
Record FormattedResponse := {
  textResponse : value;
  audioUrl : option value;
  timestamp : jsstring;
  promptLength : nat;
  responseLength : value;
  aiProvider : jsstring;
  success : bool
}.

(** The state of the component. *)
Record State := {
  prompt : jsstring;
  systemMessage : jsstring;
  response : option FormattedResponse;
  loading : bool;
  error : option value;
  audioPlaying : bool;
  serverStatus : ServerStatus
}.

Inductive toast :=
| toast_error (message : value)
| toast_loading (message : jsstring)
| toast_success_replacing_loading (message : jsstring).

Definition API_BASE_URL : jsstring := lit "http://localhost:5000/api".

Definition health_endpoint : jsstring := API_BASE_URL ++ lit "/health".
Definition chat_endpoint : jsstring := API_BASE_URL ++ lit "/chat".

(** [v.length] of a value that is neither undefined nor null. *)
Definition js_length (v : value) : value :=
  match v with
  | VStr s => VNum (inject_Z (Z.of_nat (length s)))
  | VArr items => VNum (inject_Z (Z.of_nat (length items)))
  | VObj fields => default VUndefined (assoc (lit "length") fields)
  | _ => VUndefined
  end.

Definition is_connected (s : ServerStatus) : bool :=
  match s with connected => true | _ => false end.

Definition set_serverStatus (s : ServerStatus) (st : State) : State :=
  {| prompt := prompt st; systemMessage := systemMessage st; response := response st;
     loading := loading st; error := error st; audioPlaying := audioPlaying st;
     serverStatus := s |}.

(** [checkServerHealth], given how the GET request settles. *)
Definition checkServerHealth (get : jsstring -> outcome) (st : State) : State * list toast :=
  let failed (code : option jsstring) :=
    (set_serverStatus disconnected st,
     [toast_error
        (if bool_decide (code = Some (lit "ECONNREFUSED"))
         then VStr (lit "Backend server is not running. Please start the server with "
                    ++ [0x22%N] ++ lit "node index.js" ++ [0x22%N]
                    ++ lit " in the server directory.")
         else str "Unable to connect to AI server. Please check if the server is running on port 5000.")]) in
  match get health_endpoint with
  | Resolved data =>
      match get_field data "status" with
      | Ok s => if truthy s then (set_serverStatus connected st, []) else (st, [])
      | Throw _ => failed None
      end
  | Rejected _ code => failed code
  end.

(** The body of the chat request. *)
Definition chat_request (st : State) : value :=
  obj [("message", VStr (trim (prompt st)));
       ("systemMessage", js_or (VStr (trim (systemMessage st))) VUndefined)].

(** The message of the [catch] branch of [handleSubmit], and whether the
    branch marks the server as disconnected. *)
Definition error_message (response : option (Z * value)) (code : option jsstring)
    : value * bool :=
  let std := opt_field (from_option snd VUndefined response) "error" in
  let status := fst <$> response in
  if truthy std then (std, false)
  else if bool_decide (status = Some 429%Z) then
    (str "API rate limit exceeded. Please wait a moment and try again.", false)
  else if bool_decide (status = Some 401%Z) then
    (str "Vapi API authentication failed. Please check your API key configuration.", false)
  else if bool_decide (code = Some (lit "ECONNABORTED")) then
    (str "Request timed out. The AI is taking longer than usual to respond.", false)
  else if bool_decide (code = Some (lit "NETWORK_ERROR"))
          || bool_decide (code = Some (lit "ECONNREFUSED")) then
    (str "Cannot connect to server. Please make sure the backend is running on port 5000.",
     true)
  else (str "Failed to generate response. Please try again.", false).

(** [handleSubmit], given how the POST request settles and the time
    stamp [new Date().toISOString()] gives. The second component holds
    the requests sent, the third the toasts shown. *)
Definition handleSubmit (post : jsstring -> value -> outcome) (iso : jsstring)
    (st : State) : State * list (jsstring * value) * list toast :=
  if bool_decide (trim (prompt st) = []) then
    (st, [], [toast_error (str "Please enter a prompt!")])
  else if negb (is_connected (serverStatus st)) then
    (st, [], [toast_error (str "Server is not connected. Please check your backend.")])
  else
    let sent := [(chat_endpoint, chat_request st)] in
    let loadingToast := toast_loading (lit "Generating AI response with Vapi...") in
    let failed (response : option (Z * value)) (code : option jsstring) :=
      let '(errorMessage, lost) := error_message response code in
      ({| prompt := prompt st; systemMessage := systemMessage st; response := None;
          loading := false; error := Some errorMessage;
          audioPlaying := audioPlaying st;
          serverStatus := if lost then disconnected else serverStatus st |},
       sent, [loadingToast; toast_error errorMessage]) in
    match post chat_endpoint (chat_request st) with
    | Resolved data =>
        match get_field data "response", get_field data "audioFileName" with
        | Ok text, Ok audioFileName =>
            if truthy text then
              ({| prompt := []; systemMessage := systemMessage st;
                  response := Some
                    {| textResponse := text;
                       audioUrl := if truthy audioFileName then Some audioFileName else None;
                       timestamp := iso;
                       promptLength := length (trim (prompt st));
                       responseLength := js_length text;
                       aiProvider := lit "Vapi AI";
                       success := true |};
                  loading := false; error := None;
                  audioPlaying := audioPlaying st;
                  serverStatus := serverStatus st |},
               sent,
               [loadingToast;
                toast_success_replacing_loading (lit "AI response generated successfully!")])
            else failed None None
        | _, _ => failed None None
        end
    | Rejected response code => failed response code
    end.

(** How the browser sees a JSON response of the server; [code] is the
    [error.code] axios gives to a rejection by status. *)
Definition axios_result (code : option jsstring) (r : Response) : outcome :=
  match body r with
  | Json v =>
      if ((200 <=? status r) && (status r <? 300))%Z then Resolved (json_data v)
      else Rejected (Some (status r, json_data v)) code
  | _ => Rejected (Some (status r, VUndefined)) code
  end.

(** The transport that hands the chat request to the handler of the
    server in the world [w]: the body goes to the server as JSON, and the
    response comes back as JSON. *)
Definition chat_backend (env : Env) (w : World) (code : option jsstring)
    (url : jsstring) (data : value) : outcome :=
  match (post_api_chat env (wire data) w).1 with
  | Ok r => axios_result code r
  | Throw _ => Rejected (Some (500%Z, VUndefined)) code
  end.

(** The transport that hands the health check to the server. *)
Definition health_backend (env : Env) (w : World) (code : option jsstring)
    (url : jsstring) : outcome :=
  match (get_api_health env w).1 with
  | Ok r => axios_result code r
  | Throw _ => Rejected (Some (500%Z, VUndefined)) code
  end.

End App.

(** The TTS endpoint times out, the disk works. *)
Definition tts_down_env : Env :=
  {| env_VAPI_API_KEY := env_VAPI_API_KEY stub_env;
     __dirname := __dirname stub_env;
     http_post := http_post stub_env;
     http_get := fun _ _ _ => Rejected None;
     clock := clock stub_env;
     toLocaleString := toLocaleString stub_env;
     mkdir_ok := mkdir_ok stub_env;
     write_ok := write_ok stub_env |}.

(** A text whose 200th and 201st code units are the two halves of U+1F600. *)
Definition split_pair_text : jsstring := repeat 0x61%N 199 ++ [0xD83D; 0xDE00]%N.

(** The component after a health check found the server, with a prompt
    typed in. *)
Definition ready_app : App.State :=
  {| App.prompt := lit "  Hello  "; App.systemMessage := lit "Answer in French.";
     App.response := None; App.loading := false; App.error := None;
     App.audioPlaying := false; App.serverStatus := App.connected |}.

(** The component before the health check has answered. *)
Definition starting_app : App.State := App.set_serverStatus App.checking ready_app.

(** The requests and the toasts of a submit that went out. *)
Definition submitted (st : App.State) : list (jsstring * value) :=
  [(App.chat_endpoint, App.chat_request st)].

Definition loading_toast : App.toast :=
  App.toast_loading (lit "Generating AI response with Vapi...").

Definition success_toast : App.toast :=
  App.toast_success_replacing_loading (lit "AI response generated successfully!").

(** The state after a submit that was answered with [fr]: the prompt is
    cleared, nothing is loading, no error is shown. *)
Definition answered (st : App.State) (fr : App.FormattedResponse) : App.State :=
  {| App.prompt := []; App.systemMessage := App.systemMessage st;
     App.response := Some fr; App.loading := false; App.error := None;
     App.audioPlaying := App.audioPlaying st; App.serverStatus := App.serverStatus st |}.

(** The state after a submit that failed with [msg]: the prompt is kept,
    the previous response is gone. *)
Definition failed_with (st : App.State) (msg : value) (s : App.ServerStatus) : App.State :=
  {| App.prompt := App.prompt st; App.systemMessage := App.systemMessage st;
     App.response := None; App.loading := false; App.error := Some msg;
     App.audioPlaying := App.audioPlaying st; App.serverStatus := s |}.

(** The error codes after which [handleSubmit] marks the server as lost. *)
Definition connection_lost (code : option jsstring) : bool :=
  bool_decide (code = Some (lit "NETWORK_ERROR"))
  || bool_decide (code = Some (lit "ECONNREFUSED")).

(** ** Strings *)

Section Strings.

Lemma lit_inj (a b : string) : lit a = lit b -> a = b.
Proof.
  revert b; induction a as [|c a IH]; intros [|d b]; simpl; try discriminate; auto.
  intros [= Hc Hr]. f_equal; [|auto].
  rewrite <- (ascii_N_embedding c), <- (ascii_N_embedding d). now rewrite Hc.
Qed.

Lemma number_to_string_inj (a b : N) :
  number_to_string a = number_to_string b -> a = b.
Proof. intros H. apply lit_inj in H. exact (inj pretty _ _ H). Qed.

Lemma response_name_inj (a b : N) : response_name a = response_name b -> a = b.
Proof.
  unfold response_name. intros H.
  apply app_inv_head, app_inv_tail in H. now apply number_to_string_inj.
Qed.

Lemma fallback_name_inj (a b : N) : fallback_name a = fallback_name b -> a = b.
Proof.
  unfold fallback_name. intros H.
  apply app_inv_head, app_inv_tail in H. now apply number_to_string_inj.
Qed.

Lemma response_fallback_distinct (a b : N) : response_name a <> fallback_name b.
Proof.
  unfold response_name, fallback_name. intros H.
  apply (f_equal head) in H. vm_compute in H. discriminate.
Qed.

(** The audio file of the demo tier and its companion text never share a path. *)
Lemma audio_text_paths_distinct (dir : jsstring) (a b : N) :
  path_join dir (response_name a) <> path_join dir (response_text_name b).
Proof.
  unfold path_join, response_name, response_text_name. intros H.
  apply (f_equal reverse) in H. rewrite !reverse_app in H.
  apply (f_equal head) in H. vm_compute in H. discriminate.
Qed.



Lemma substring0_length (n : nat) (s : jsstring) :
  n <= length s -> length (substring0 n s) = n.
Proof. intros H. unfold substring0. rewrite length_take. lia. Qed.

Lemma percent_encode_length (cp : N) : length (percent_encode cp) <= 12.
Proof.
  unfold percent_encode, utf8.
  repeat match goal with |- context [if ?b then _ else _] => destruct b end;
    simpl; lia.
Qed.

Lemma encodeURIComponent_cons (c : N) (r : jsstring) :
  encodeURIComponent (c :: r) =
  if uri_unreserved c then (c ::.) <$> encodeURIComponent r
  else if is_trail_surrogate c then None
  else if is_lead_surrogate c then
    match r with
    | d :: r' =>
        if is_trail_surrogate d then
          (percent_encode ((c - 0xD800) * 0x400 + (d - 0xDC00) + 0x10000)%N ++.)
            <$> encodeURIComponent r'
        else None
    | [] => None
    end
  else (percent_encode c ++.) <$> encodeURIComponent r.
Proof. reflexivity. Qed.

(** An encoded string has at most twelve characters for each code unit
    of its source. *)
Lemma encodeURIComponent_length (s e : jsstring) :
  encodeURIComponent s = Some e -> length e <= 12 * length s.
Proof.
  assert (H : forall s : jsstring,
             (forall e, encodeURIComponent s = Some e -> length e <= 12 * length s) /\
             (forall c e, encodeURIComponent (c :: s) = Some e ->
                          length e <= 12 * length (c :: s))).
  { clear. induction s as [|d s [IH1 IH2]].
    - split; [intros e [= <-]; simpl; lia|].
      intros c e. simpl.
      repeat match goal with |- context [if ?b then _ else _] => destruct b end;
        try discriminate; intros [= <-]; simpl;
        try lia; pose proof (percent_encode_length c); rewrite ?length_app; simpl; lia.
    - split; [exact (IH2 d)|].
      intros c e. rewrite (encodeURIComponent_cons c (d :: s)).
      destruct (uri_unreserved c).
      + destruct (encodeURIComponent (d :: s)) as [e'|] eqn:E; simpl; [|discriminate].
        intros [= <-]. specialize (IH2 d e' E). simpl in *. lia.
      + destruct (is_trail_surrogate c); [discriminate|].
        destruct (is_lead_surrogate c).
        * destruct (is_trail_surrogate d); [|discriminate].
          destruct (encodeURIComponent s) as [e'|] eqn:E; simpl; [|discriminate].
          intros [= <-]. specialize (IH1 e' eq_refl).
          rewrite length_app.
          match goal with |- context [percent_encode ?x] =>
            pose proof (percent_encode_length x) end. simpl in *. lia.
        * destruct (encodeURIComponent (d :: s)) as [e'|] eqn:E; simpl; [|discriminate].
          intros [= <-]. specialize (IH2 d e' E).
          rewrite length_app. pose proof (percent_encode_length c).
          simpl in *. lia. }
  apply H.
Qed.

Example encodeURIComponent_plain :
  encodeURIComponent (lit "Hi there! a&b=c") = Some (lit "Hi%20there!%20a%26b%3Dc").
Proof. reflexivity. Qed.

(** U+00E9, U+20AC and the pair of U+1F600. *)
Example encodeURIComponent_utf8 :
  encodeURIComponent [0xE9; 0x20AC; 0xD83D; 0xDE00]%N
  = Some (lit "%C3%A9%E2%82%AC%F0%9F%98%80").
Proof. reflexivity. Qed.

(** A pair cut in two by [substring] cannot be encoded. *)
Example encodeURIComponent_lone_surrogate :
  encodeURIComponent (substring0 2 [0x61; 0xD83D; 0xDE00]%N) = None.
Proof. reflexivity. Qed.

Example trim_example : trim (lit "  Hello there  ") = lit "Hello there".
Proof. reflexivity. Qed.

Example response_name_example :
  response_name 1700000000000 = lit "response_1700000000000.mp3".
Proof. reflexivity. Qed.

End Strings.
(** ** Computations and their calls to the outside *)

Ltac run := unfold try_catch, bind, lift, ret, throw.

Lemma run_response {A} (a b : A) (w w' : World) : (Ok a, w) = (Ok b, w') -> a = b.
Proof. now intros [= -> _]. Qed.

Lemma run_world {A} (r r' : result A) (w w' : World) : (r, w) = (r', w') -> w = w'.
Proof. now intros [= _ ->]. Qed.

Section Effects.

Variable env : Env.

Lemma trace_log (ev : event) (w : World) : trace (log ev w) = trace w ++ [ev].
Proof. reflexivity. Qed.

Lemma emits_weaken {A} (P Q : event -> Prop) (m : M A) :
  (forall ev, P ev -> Q ev) -> emits P m -> emits Q m.
Proof.
  intros HPQ Hm w. destruct (Hm w) as (new & Ht & HP).
  exists new. split; [exact Ht|]. eapply Forall_impl; eauto.
Qed.

Lemma emits_lift {A} (P : event -> Prop) (r : result A) : emits P (lift r).
Proof. intros w. exists []. rewrite app_nil_r. split; [reflexivity|constructor]. Qed.

Lemma emits_ret {A} (P : event -> Prop) (a : A) : emits P (ret a).
Proof. apply (emits_lift P (Ok a)). Qed.

Lemma emits_throw {A} (P : event -> Prop) (e : exn) : emits P (@throw A e).
Proof. apply (emits_lift P (Throw e)). Qed.

Lemma emits_bind {A B} (P : event -> Prop) (m : M A) (k : A -> M B) :
  emits P m ->
  (forall a, (exists w w', m w = (Ok a, w')) -> emits P (k a)) ->
  emits P (bind m k).
Proof.
  intros Hm Hk w. unfold bind.
  destruct (Hm w) as (new1 & Ht1 & HP1).
  destruct (m w) as [[a|e] w1] eqn:E; simpl in Ht1.
  - destruct (Hk a (ex_intro _ w (ex_intro _ w1 E)) w1) as (new2 & Ht2 & HP2).
    exists (new1 ++ new2). rewrite Ht2, Ht1, app_assoc.
    split; [reflexivity|]. apply Forall_app; auto.
  - exists new1. auto.
Qed.

Lemma emits_try_catch {A} (P : event -> Prop) (m : M A) (h : exn -> M A) :
  emits P m -> (forall e, emits P (h e)) -> emits P (try_catch m h).
Proof.
  intros Hm Hh w. unfold try_catch.
  destruct (Hm w) as (new1 & Ht1 & HP1).
  destruct (m w) as [[a|e] w1] eqn:E; simpl in Ht1.
  - exists new1. auto.
  - destruct (Hh e w1) as (new2 & Ht2 & HP2).
    exists (new1 ++ new2). rewrite Ht2, Ht1, app_assoc.
    split; [reflexivity|]. apply Forall_app; auto.
Qed.

Lemma emits_one {A} (P : event -> Prop) (m : M A) (ev : event) :
  P ev -> (forall w, trace (m w).2 = trace w ++ [ev]) -> emits P m.
Proof. intros HP H w. exists [ev]. split; [apply H|]. repeat constructor. exact HP. Qed.

Lemma emits_Date_now (P : event -> Prop) : P EvNow -> emits P (Date_now env).
Proof. intros HP. apply (emits_one P _ EvNow HP). reflexivity. Qed.

Lemma emits_axios_post (P : event -> Prop) url data h :
  P (EvPost url data h) -> emits P (axios_post env url data h).
Proof.
  intros HP. apply (emits_one P _ _ HP). intros w. unfold axios_post.
  destruct (http_post env (trace w) url data h); reflexivity.
Qed.

Lemma emits_axios_get (P : event -> Prop) url h :
  P (EvGet url h) -> emits P (axios_get env url h).
Proof.
  intros HP. apply (emits_one P _ _ HP). intros w. unfold axios_get.
  destruct (http_get env (trace w) url h); reflexivity.
Qed.

Lemma emits_fs_existsSync (P : event -> Prop) path : emits P (fs_existsSync path).
Proof. intros w. exists []. rewrite app_nil_r. split; [reflexivity|constructor]. Qed.

Lemma emits_fs_mkdirSync (P : event -> Prop) path :
  P (EvMkdir path) -> emits P (fs_mkdirSync env path).
Proof.
  intros HP. apply (emits_one P _ _ HP). intros w. unfold fs_mkdirSync.
  destruct (mkdir_ok env (trace w) path); reflexivity.
Qed.

Lemma emits_fs_writeFileSync (P : event -> Prop) path c :
  P (EvWrite path c) -> emits P (fs_writeFileSync env path c).
Proof.
  intros HP. apply (emits_one P _ _ HP). intros w. unfold fs_writeFileSync.
  destruct (write_ok env (trace w) path c); reflexivity.
Qed.

(** Whatever a computation does, the history only grows. *)
Lemma emits_prefix {A} (P : event -> Prop) (m : M A) (w : World) :
  emits P m -> trace w `prefix_of` trace (m w).2.
Proof. intros Hm. destruct (Hm w) as (new & -> & _). now exists new. Qed.

End Effects.

(** ** The assistant id cache *)

Section Assistant.

Variable env : Env.

Lemma getOrCreateAssistant_cached (w : World) :
  truthy (ASSISTANT_ID w) = true ->
  getOrCreateAssistant env w = (Ok (ASSISTANT_ID w), w).
Proof. intros H. unfold getOrCreateAssistant. now rewrite H. Qed.

Lemma getOrCreateAssistant_create (w : World) :
  truthy (ASSISTANT_ID w) = false ->
  getOrCreateAssistant env w =
  let w1 := log (EvPost assistant_url assistant_config (vapi_headers env)) w in
  match http_post env (trace w) assistant_url assistant_config (vapi_headers env) with
  | Rejected r => (Throw (AxiosError r), w1)
  | Resolved d =>
      match get_field d "id" with
      | Ok id => (Ok id, set_ASSISTANT_ID id w1)
      | Throw e => (Throw e, w1)
      end
  end.
Proof.
  intros H. unfold getOrCreateAssistant. rewrite H. run. unfold axios_post.
  destruct (http_post env (trace w) assistant_url assistant_config (vapi_headers env))
    as [d|r]; [|reflexivity].
  cbn zeta. destruct (get_field d "id"); reflexivity.
Qed.

(** What a call returns is what the cache holds afterwards. *)
Lemma getOrCreateAssistant_caches (w w1 : World) (id : value) :
  getOrCreateAssistant env w = (Ok id, w1) -> ASSISTANT_ID w1 = id.
Proof.
  destruct (truthy (ASSISTANT_ID w)) eqn:Hc.
  - rewrite (getOrCreateAssistant_cached w Hc). now intros [= <- <-].
  - rewrite (getOrCreateAssistant_create w Hc). cbn zeta.
    destruct (http_post env (trace w) assistant_url assistant_config (vapi_headers env))
      as [d|r]; [|discriminate].
    destruct (get_field d "id"); [|discriminate].
    now intros [= <- <-].
Qed.

Lemma trace_set_ASSISTANT_ID (id : value) (w : World) :
  trace (set_ASSISTANT_ID id w) = trace w.
Proof. reflexivity. Qed.

Lemma creation_requests_log (ev : event) (w : World) :
  creation_requests (trace (log ev w))
  = creation_requests (trace w) + (if is_creation ev then 1 else 0).
Proof.
  unfold creation_requests. rewrite trace_log, filter_app, length_app.
  f_equal. rewrite filter_cons, filter_nil.
  destruct (is_creation ev); reflexivity.
Qed.

(** One call issues one creation request, or none when the id is cached. *)
Lemma getOrCreateAssistant_requests (w : World) :
  creation_requests (trace (getOrCreateAssistant env w).2)
  = creation_requests (trace w) + (if truthy (ASSISTANT_ID w) then 0 else 1).
Proof.
  destruct (truthy (ASSISTANT_ID w)) eqn:Hc.
  - rewrite (getOrCreateAssistant_cached w Hc). simpl. lia.
  - rewrite (getOrCreateAssistant_create w Hc). cbn zeta.
    destruct (http_post env (trace w) assistant_url assistant_config (vapi_headers env))
      as [d|r]; [destruct (get_field d "id")|]; cbn [snd];
      rewrite ?trace_set_ASSISTANT_ID, creation_requests_log; reflexivity.
Qed.

Lemma emits_getOrCreateAssistant (P : event -> Prop) :
  P (EvPost assistant_url assistant_config (vapi_headers env)) ->
  emits P (getOrCreateAssistant env).
Proof.
  intros HP w. destruct (truthy (ASSISTANT_ID w)) eqn:Hc.
  - rewrite (getOrCreateAssistant_cached w Hc). exists [].
    rewrite app_nil_r. split; [reflexivity|constructor].
  - rewrite (getOrCreateAssistant_create w Hc). cbn zeta.
    exists [EvPost assistant_url assistant_config (vapi_headers env)].
    split; [|repeat constructor; exact HP].
    destruct (http_post env (trace w) assistant_url assistant_config (vapi_headers env))
      as [d|r]; [destruct (get_field d "id")|]; reflexivity.
Qed.

End Assistant.

(** ** The three tiers of audio generation *)

Section Audio.

Variable env : Env.

Lemma fallback_tier_run (w : World) :
  fallback_tier env w =
  let audioFileName := fallback_name (clock env (trace w)) in
  let audioPath := path_join (audio_dir env) audioFileName in
  let w1 := log (EvWrite audioPath (Buffer minimalMp3)) (log EvNow w) in
  if write_ok env (trace (log EvNow w)) audioPath (Buffer minimalMp3)
  then (Ok audioFileName, add_file audioPath (Buffer minimalMp3) w1)
  else (Throw (Error (lit "Failed to generate audio")), w1).
Proof.
  unfold fallback_tier, Date_now, fs_writeFileSync. run. cbn zeta.
  destruct (write_ok env (trace (log EvNow w)) _ _); reflexivity.
Qed.

Lemma tts_tier_ok (text : value) (name path n : jsstring) (w w' : World) :
  tts_tier env text name path w = (Ok n, w') ->
  n = name /\
  exists h url data,
    http_get env h url tts_headers = Resolved data /\
    files w' !! path = Some (Buffer data).
Proof.
  unfold tts_tier, axios_get, fs_writeFileSync. run.
  destruct (js_substring0 text 200) as [head|]; [|discriminate].
  destruct (js_encodeURIComponent head) as [enc|]; [|discriminate].
  destruct (http_get env (trace w) (tts_url enc) tts_headers) as [data|] eqn:Hget;
    [|discriminate].
  destruct (write_ok env _ path (Buffer data)); [|discriminate].
  intros [= <- <-]. split; [reflexivity|].
  exists (trace w), (tts_url enc), data. split; [exact Hget|].
  apply lookup_insert_eq.
Qed.

Lemma demo_tier_ok (text : value) (t : N) (n : jsstring) (w w' : World) :
  demo_tier env text (response_name t)
    (path_join (audio_dir env) (response_name t)) w = (Ok n, w') ->
  n = response_name t /\
  files w' !! path_join (audio_dir env) (response_name t) = Some (Buffer mp3Header).
Proof.
  unfold demo_tier, Date_now, fs_writeFileSync. run.
  destruct (write_ok env (trace w) _ (Buffer mp3Header)); [|discriminate].
  destruct (to_string_throws text); [discriminate|].
  match goal with |- context [write_ok env ?h ?p ?c] => destruct (write_ok env h p c) end;
    [|discriminate].
  intros [= <- <-]. split; [reflexivity|]. cbn [files add_file log].
  rewrite lookup_insert_ne; [apply lookup_insert_eq|].
  intros H. symmetry in H. exact (audio_text_paths_distinct _ _ _ H).
Qed.

Lemma generateAudio_unfold (text : value) (w : World) :
  generateAudio env text w =
  let audioFileName := response_name (clock env (trace w)) in
  let audioPath := path_join (audio_dir env) audioFileName in
  if bool_decide (audio_dir env ∈ dirs w)
     || mkdir_ok env (trace (log EvNow w)) (audio_dir env)
  then
    match tts_tier env text audioFileName audioPath (after_setup env w) with
    | (Ok n, w2) => (Ok n, w2)
    | (Throw _, w2) =>
        match demo_tier env text audioFileName audioPath w2 with
        | (Ok n, w3) => (Ok n, w3)
        | (Throw _, w3) => fallback_tier env w3
        end
    end
  else fallback_tier env (log (EvMkdir (audio_dir env)) (log EvNow w)).
Proof.
  unfold generateAudio, Date_now, fs_existsSync, fs_mkdirSync, after_setup.
  run. cbn zeta. cbn [dirs log].
  destruct (bool_decide (audio_dir env ∈ dirs w)); cbn [negb orb].
  - destruct (tts_tier env text _ _ (log EvNow w)) as [[n|e] w2]; [reflexivity|].
    destruct (demo_tier env text _ _ w2) as [[n|e'] w3]; reflexivity.
  - destruct (mkdir_ok env (trace (log EvNow w)) (audio_dir env)); [|reflexivity].
    match goal with |- context [tts_tier env text ?a ?b ?x] =>
      destruct (tts_tier env text a b x) as [[n|e] w2] end; [reflexivity|].
    destruct (demo_tier env text _ _ w2) as [[n|e'] w3]; reflexivity.
Qed.

Lemma emits_generateAudio (text : value) :
  emits (audio_call (tts_request_of text)) (generateAudio env text).
Proof.
  unfold generateAudio, tts_tier, demo_tier, fallback_tier.
  repeat first
    [ apply emits_try_catch; [|intros ?]
    | apply emits_bind; [|intros ? (? & ? & ?)]
    | apply emits_ret | apply emits_throw
    | apply emits_Date_now; exact I
    | apply emits_fs_existsSync
    | apply emits_fs_mkdirSync; exact I
    | apply emits_fs_writeFileSync; exact I
    | match goal with |- emits _ (if ?b then _ else _) => destruct b end ].
  - apply emits_lift.
  - apply emits_lift.
  - apply emits_axios_get. cbn [audio_call].
    unfold tts_request_of, lift, js_encodeURIComponent in *.
    repeat match goal with H : (_, _) = (_, _) |- _ => injection H as ? ? end.
    match goal with
    | H1 : js_substring0 text 200 = Ok ?hd,
      H2 : match encodeURIComponent ?hd with _ => _ end = Ok ?e |- _ =>
        destruct (encodeURIComponent hd) eqn:E; [|discriminate];
        injection H2 as <-; exists hd; eexists; eauto
    end.
Qed.

Lemma emits_tts_tier (text : value) (name path : jsstring) :
  emits (fun _ => True) (tts_tier env text name path).
Proof.
  unfold tts_tier.
  repeat first
    [ apply emits_bind; [|intros ? _] | apply emits_ret | apply emits_lift
    | apply emits_axios_get; exact I | apply emits_fs_writeFileSync; exact I ].
Qed.

Lemma emits_demo_tier (text : value) (name path : jsstring) :
  emits (fun _ => True) (demo_tier env text name path).
Proof.
  unfold demo_tier.
  repeat first
    [ apply emits_bind; [|intros ? _] | apply emits_ret | apply emits_throw
    | apply emits_Date_now; exact I | apply emits_fs_writeFileSync; exact I
    | match goal with |- emits _ (if ?b then _ else _) => destruct b end ].
Qed.

Lemma after_setup_trace (w : World) :
  (trace w ++ [EvNow]) `prefix_of` trace (after_setup env w).
Proof.
  unfold after_setup. destruct (bool_decide (audio_dir env ∈ dirs w)).
  - reflexivity.
  - exists [EvMkdir (audio_dir env)]. reflexivity.
Qed.

(** The name a call returns carries a clock reading of that call. *)
Lemma generateAudio_name (text : value) (w w' : World) (n : jsstring) :
  generateAudio env text w = (Ok n, w') ->
  exists h,
    (trace w `prefix_of` h) /\
    ((h ++ [EvNow]) `prefix_of` trace w') /\
    (n = response_name (clock env h) \/ n = fallback_name (clock env h)).
Proof.
  assert (Hfallback : forall w3, (trace w `prefix_of` trace w3) ->
    fallback_tier env w3 = (Ok n, w') ->
    exists h, (trace w `prefix_of` h) /\ ((h ++ [EvNow]) `prefix_of` trace w') /\
      (n = response_name (clock env h) \/ n = fallback_name (clock env h))).
  { intros w3 Hpre. rewrite fallback_tier_run. cbn zeta.
    destruct (write_ok env _ _ _); [|discriminate].
    intros H. pose proof (run_world _ _ _ _ H) as <-. apply run_response in H.
    exists (trace w3). split; [exact Hpre|]. split; [|now right].
    eexists [_]. reflexivity. }
  rewrite generateAudio_unfold. cbn zeta.
  destruct (bool_decide (audio_dir env ∈ dirs w) || mkdir_ok env _ _).
  2:{ apply Hfallback. exists [EvNow; EvMkdir (audio_dir env)].
      cbn [trace log]. now rewrite <- app_assoc. }
  pose proof (after_setup_trace w) as Hsetup.
  pose proof (emits_prefix (fun _ => True) _ (after_setup env w)
                (emits_tts_tier text (response_name (clock env (trace w)))
                   (path_join (audio_dir env) (response_name (clock env (trace w))))))
    as Htts.
  match type of Htts with context [tts_tier env text ?a ?b ?x] =>
    destruct (tts_tier env text a b x) as [[m|e1] w2] eqn:E1 end; cbn [snd] in Htts.
  - intros H. pose proof (run_world _ _ _ _ H) as <-. apply run_response in H.
    destruct (tts_tier_ok _ _ _ _ _ _ E1) as [-> _].
    exists (trace w). split; [reflexivity|]. split; [|now left].
    now transitivity (trace (after_setup env w)).
  - pose proof (emits_prefix (fun _ => True) _ w2
                  (emits_demo_tier text (response_name (clock env (trace w)))
                     (path_join (audio_dir env) (response_name (clock env (trace w))))))
      as Hdemo.
    match type of Hdemo with context [demo_tier env text ?a ?b ?x] =>
      destruct (demo_tier env text a b x) as [[m|e2] w3] eqn:E2 end; cbn [snd] in Hdemo.
    + intros H. pose proof (run_world _ _ _ _ H) as <-. apply run_response in H.
      destruct (demo_tier_ok _ _ _ _ _ E2) as [-> _].
      exists (trace w). split; [reflexivity|]. split; [|now left].
      transitivity (trace (after_setup env w)); [exact Hsetup|].
      now transitivity (trace w2).
    + apply Hfallback.
      transitivity (trace w ++ [EvNow]); [now apply prefix_app_r|].
      transitivity (trace (after_setup env w)); [exact Hsetup|].
      now transitivity (trace w2).
Qed.

End Audio.

(** ** What the handlers leave untouched *)

Section Stability.

Variable env : Env.

Lemma stable_lift {A X} (f : World -> X) (r : result A) : stable f (lift r).
Proof. intros w. reflexivity. Qed.

Lemma stable_bind {A B X} (f : World -> X) (m : M A) (k : A -> M B) :
  stable f m -> (forall a, stable f (k a)) -> stable f (bind m k).
Proof.
  intros Hm Hk w. unfold bind. specialize (Hm w).
  destruct (m w) as [[a|e] w1]; simpl in Hm; [|exact Hm].
  now rewrite (Hk a w1).
Qed.

Lemma stable_try_catch {A X} (f : World -> X) (m : M A) (h : exn -> M A) :
  stable f m -> (forall e, stable f (h e)) -> stable f (try_catch m h).
Proof.
  intros Hm Hh w. unfold try_catch. specialize (Hm w).
  destruct (m w) as [[a|e] w1]; simpl in Hm; [exact Hm|].
  now rewrite (Hh e w1).
Qed.

Lemma stable_Date_now : stable ASSISTANT_ID (Date_now env).
Proof. intros w. reflexivity. Qed.

Lemma stable_axios_get url h : stable ASSISTANT_ID (axios_get env url h).
Proof. intros w. unfold axios_get. destruct (http_get env (trace w) url h); reflexivity. Qed.

Lemma stable_fs_existsSync path : stable ASSISTANT_ID (fs_existsSync path).
Proof. intros w. reflexivity. Qed.

Lemma stable_fs_mkdirSync path : stable ASSISTANT_ID (fs_mkdirSync env path).
Proof.
  intros w. unfold fs_mkdirSync. destruct (mkdir_ok env (trace w) path); reflexivity.
Qed.

Lemma stable_fs_writeFileSync path c : stable ASSISTANT_ID (fs_writeFileSync env path c).
Proof.
  intros w. unfold fs_writeFileSync. destruct (write_ok env (trace w) path c); reflexivity.
Qed.

(** Audio generation never touches the assistant id. *)
Lemma stable_generateAudio (text : value) :
  stable ASSISTANT_ID (generateAudio env text).
Proof.
  unfold generateAudio, tts_tier, demo_tier, fallback_tier.
  repeat first
    [ apply stable_try_catch; [|intros ?]
    | apply stable_bind; [|intros ?]
    | apply (stable_lift ASSISTANT_ID)
    | apply stable_Date_now
    | apply stable_axios_get
    | apply stable_fs_existsSync
    | apply stable_fs_mkdirSync
    | apply stable_fs_writeFileSync
    | match goal with |- stable _ (if ?b then _ else _) => destruct b end ].
Qed.

End Stability.

(** ** The chat handler, step by step *)

Section Chat.

Variable env : Env.

Lemma get_field_total (v : value) (n n' : string) (x : value) :
  get_field v n = Ok x -> exists y, get_field v n' = Ok y.
Proof. destruct v; simpl; try discriminate; eauto. Qed.

Lemma get_field_cons_ne (k : string) (v : value) (fields : list (jsstring * value))
    (name : string) :
  name <> k ->
  get_field (VObj ((lit k, v) :: fields)) name = get_field (VObj fields) name.
Proof.
  intros Hne. unfold get_field. cbn [assoc].
  rewrite bool_decide_eq_false_2; [reflexivity|].
  intros H. apply Hne. now apply lit_inj.
Qed.

Lemma post_api_chat_bad_body (w : World) (req_body : value) (e : exn) :
  get_field req_body "message" = Throw e ->
  post_api_chat env req_body w = (Ok (chat_error_response e), w).
Proof. intros H. unfold post_api_chat. run. now rewrite H. Qed.

Lemma post_api_chat_no_message (w : World) (req_body message : value) :
  get_field req_body "message" = Ok message ->
  truthy message = false ->
  post_api_chat env req_body w
  = (Ok (json 400 (obj [("error", str "Message is required")])), w).
Proof.
  intros Hm Ht. unfold post_api_chat. run. rewrite Hm.
  destruct (get_field_total _ _ "systemMessage" _ Hm) as [s ->].
  now rewrite Ht.
Qed.

Lemma post_api_chat_unfold (w : World) (req_body message : value) :
  get_field req_body "message" = Ok message ->
  truthy message = true ->
  post_api_chat env req_body w =
  match getOrCreateAssistant env w with
  | (Throw e, w1) => (Ok (chat_error_response e), w1)
  | (Ok assistantId, w1) =>
      match js_trim message with
      | Throw e => (Ok (chat_error_response e), w1)
      | Ok input =>
          let w2 := log (EvPost chat_url (chat_payload assistantId input) (vapi_headers env)) w1 in
          match http_post env (trace w1) chat_url (chat_payload assistantId input)
                  (vapi_headers env) with
          | Rejected r => (Ok (chat_error_response (AxiosError r)), w2)
          | Resolved d =>
              if nullish d then (Ok (chat_error_response TypeError), w2)
              else
                match generateAudio env (reply_text d) w2 with
                | (Ok name, w3) => (Ok (success_response d (VStr name)), w3)
                | (Throw _, w3) => (Ok (success_response d VNull), w3)
                end
          end
      end
  end.
Proof.
  intros Hm Ht. unfold post_api_chat. run. rewrite Hm.
  destruct (get_field_total _ _ "systemMessage" _ Hm) as [s ->].
  rewrite Ht. cbn [negb].
  destruct (getOrCreateAssistant env w) as [[aid|e] w1]; [|reflexivity].
  destruct (js_trim message) as [input|e]; [|reflexivity].
  unfold axios_post.
  destruct (http_post env (trace w1) chat_url (chat_payload aid input) (vapi_headers env))
    as [d|r]; [|reflexivity].
  cbn zeta. unfold reply_text, success_response, opt_field.
  destruct d; cbn [nullish get_field]; try reflexivity;
    match goal with
    | |- context [generateAudio ?e ?t ?w] => destruct (generateAudio e t w) as [[name|err] w3]
    end; reflexivity.
Qed.

(** The [catch] branch answers 200 with the fixed text of the status. *)
Lemma chat_error_response_eq (e : exn) :
  chat_error_response e = failure_response (error_status e).
Proof.
  unfold chat_error_response, failure_response, failure_text.
  destruct (error_status e) as [[|p|p]|]; try reflexivity.
  repeat (destruct p as [p|p|]; try reflexivity).
Qed.

Lemma failure_text_string (st : option Z) :
  exists text, failure_text st = VStr text /\ text <> [].
Proof.
  unfold failure_text.
  destruct st as [[|p|p]|];
    try (eexists; split; [reflexivity|discriminate]).
  repeat (destruct p as [p|p|]; try (eexists; split; [reflexivity|discriminate])).
Qed.

Lemma failure_response_ok (st : option Z) :
  status (failure_response st) = 200%Z /\
  truthy (field_of (failure_response st) "response") = true /\
  exists text, field_of (failure_response st) "response" = VStr text /\ text <> [].
Proof.
  destruct (failure_text_string st) as (text & Htext & Hne).
  assert (Hf : field_of (failure_response st) "response" = failure_text st) by reflexivity.
  rewrite Hf, Htext. split; [reflexivity|]. split; [|eauto].
  cbn [truthy]. now rewrite bool_decide_eq_false_2.
Qed.

Lemma reply_text_truthy (d : value) : truthy (reply_text d) = true.
Proof.
  unfold reply_text, js_or.
  destruct (truthy (opt_field (opt_index (opt_field d "output") 0) "content")) eqn:E;
    [exact E|reflexivity].
Qed.







(** A request whose cache is set leaves it as it is. *)
Lemma post_api_chat_keeps_cache (w : World) (req_body : value) :
  truthy (ASSISTANT_ID w) = true ->
  ASSISTANT_ID (post_api_chat env req_body w).2 = ASSISTANT_ID w.
Proof.
  intros Hc.
  destruct (get_field req_body "message") as [message|e] eqn:Hm;
    [|now rewrite (post_api_chat_bad_body w req_body e Hm)].
  destruct (truthy message) eqn:Ht;
    [|now rewrite (post_api_chat_no_message w req_body message Hm Ht)].
  rewrite (post_api_chat_unfold w req_body message Hm Ht).
  rewrite (getOrCreateAssistant_cached env w Hc).
  destruct (js_trim message) as [input|e]; [|reflexivity].
  cbn zeta.
  destruct (http_post env (trace w) chat_url _ (vapi_headers env)) as [d|r];
    [|reflexivity].
  destruct (nullish d); [reflexivity|].
  match goal with |- context [generateAudio env ?t ?x] =>
    pose proof (stable_generateAudio env t x) as Hs;
    destruct (generateAudio env t x) as [[name|err] w3] end;
    exact Hs.
Qed.

(** Only the chat endpoint writes the assistant id. *)
Lemma route_keeps_cache (r : request) (w : World) :
  is_chat r = false -> ASSISTANT_ID (route env r w).2 = ASSISTANT_ID w.
Proof.
  destruct r as [|b|b|f|f| |]; cbn [is_chat route]; try discriminate; intros _;
    try reflexivity.
  - unfold post_api_audio_generate, Date_now. run.
    destruct (get_field b "text") as [text|]; [|reflexivity].
    destruct (truthy text); reflexivity.
  - unfold get_api_audio.
    destruct (audioFiles w !! f); [reflexivity|].
    destruct (files w !! path_join (audio_dir env) f); reflexivity.
  - unfold get_static_audio.
    destruct (files w !! path_join (audio_dir env) f); reflexivity.
Qed.


Lemma serve_keeps_cache (rs : list request) (w : World) :
  truthy (ASSISTANT_ID w) = true ->
  ASSISTANT_ID (serve env rs w) = ASSISTANT_ID w.
Proof.
  revert w. induction rs as [|r rs IH]; intros w Hc; [reflexivity|].
  cbn [serve].
  assert (Hr : ASSISTANT_ID (route env r w).2 = ASSISTANT_ID w).
  { destruct (is_chat r) eqn:E; [|now apply route_keeps_cache].
    destruct r; try discriminate. now apply post_api_chat_keeps_cache. }
  rewrite IH; [exact Hr|]. now rewrite Hr.
Qed.


End Chat.

(** ** The tiers against the environment *)

Section Tiers.

Variable env : Env.

Lemma truthy_wire (v : value) :
  truthy v = true -> truthy (wire v) = true \/ exists b, v = VInf b.
Proof.
  destruct v as [| |b|q|n|s|l|l]; cbn [wire truthy]; eauto.
Qed.






(** The secondary tier at work. *)
Lemma generateAudio_secondary (text : value) (w : World) :
  tts_down env ->
  disk_accepts env ->
  to_string_throws text = false ->
  exists t2 generated w',
    generateAudio env text w = (Ok (response_name (clock env (trace w))), w') /\
    files w' !! path_join (audio_dir env) (response_name (clock env (trace w)))
    = Some (Buffer mp3Header) /\
    files w' !! path_join (audio_dir env) (response_text_name t2)
    = Some (SpokenText text generated).
Proof.
  intros Hdown [Hwrite Hmkdir] Hstring.
  rewrite generateAudio_unfold. cbn zeta.
  rewrite Hmkdir, orb_true_r.
  set (name := response_name (clock env (trace w))).
  set (path := path_join (audio_dir env) name).
  assert (Htts : exists e w2, tts_tier env text name path (after_setup env w) = (Throw e, w2)).
  { unfold tts_tier, axios_get. run.
    destruct (js_substring0 text 200) as [head|e]; [|eauto].
    destruct (js_encodeURIComponent head) as [enc|e]; [|eauto].
    destruct (Hdown (trace (after_setup env w)) (tts_url enc) tts_headers) as [r ->].
    eauto. }
  destruct Htts as (e & w2 & ->).
  unfold demo_tier, Date_now, fs_writeFileSync. run. rewrite Hstring, !Hwrite.
  eexists _, _, _. split; [reflexivity|].
  cbn [files add_file log]. split.
  - rewrite lookup_insert_ne; [apply lookup_insert_eq|].
    intros H. symmetry in H. exact (audio_text_paths_distinct _ _ _ H).
  - apply lookup_insert_eq.
Qed.



End Tiers.


(** ** The properties of the specification *)




(** C3. The example of the specification: the message "Hello", an
    assistant at hand, the stub reply of the chat endpoint and a
    successful audio generation give status 200 and the body
    {response: "Hi there!", audioFileName: the generated name,
     chatId: "c1", cost: 0.002}. *)
Theorem chat_hello_example (env : Env) (w w1 w3 : World)
    (req_body assistantId : value) (name : jsstring) :
  get_field req_body "message" = Ok (str "Hello") ->
  getOrCreateAssistant env w = (Ok assistantId, w1) ->
  http_post env (trace w1) chat_url (chat_payload assistantId (lit "Hello"))
    (vapi_headers env) = Resolved stub_chat_reply ->
  generateAudio env (str "Hi there!")
    (log (EvPost chat_url (chat_payload assistantId (lit "Hello")) (vapi_headers env)) w1)
  = (Ok name, w3) ->
  post_api_chat env req_body w
  = (Ok (json 200 (obj [("response", str "Hi there!");
                        ("audioFileName", VStr name);
                        ("chatId", str "c1");
                        ("cost", VNum (2 # 1000))])), w3)
  /\ VStr name <> VNull.
Proof.
  intros Hm Hassistant Hpost Haudio. split; [|discriminate].
  rewrite (post_api_chat_unfold env w req_body (str "Hello") Hm eq_refl).
  rewrite Hassistant.
  assert (Htrim : js_trim (str "Hello") = Ok (lit "Hello")) by reflexivity.
  rewrite Htrim. cbv beta iota zeta. rewrite Hpost.
  assert (Htext : reply_text stub_chat_reply = str "Hi there!") by reflexivity.
  assert (Hshape : nullish stub_chat_reply = false) by reflexivity.
  rewrite Hshape, Htext, Haudio. reflexivity.
Qed.

Lemma chat_hello_example_witness :
  exists name w3,
    post_api_chat stub_env hello_body fresh_world
    = (Ok (json 200 (obj [("response", str "Hi there!");
                          ("audioFileName", VStr name);
                          ("chatId", str "c1");
                          ("cost", VNum (2 # 1000))])), w3)
    /\ VStr name <> VNull.
Proof.
  eexists _, _.
  eapply (chat_hello_example stub_env fresh_world _ _ hello_body).
  - reflexivity.
  - vm_compute. reflexivity.
  - vm_compute. reflexivity.
  - vm_compute. reflexivity.
Defined.

(** C8. A chat request whose body has no message, or an empty one, is
    answered 400 {error: "Message is required"}, and the world is left
    as it was: no call to the provider, no assistant, no audio. *)
Theorem chat_requires_message (env : Env) (w : World) (req_body : value) :
  get_field req_body "message" = Ok VUndefined \/
  get_field req_body "message" = Ok (VStr []) ->
  post_api_chat env req_body w
  = (Ok (json 400 (obj [("error", str "Message is required")])), w)
  /\ trace (post_api_chat env req_body w).2 = trace w.
Proof.
  intros H.
  assert (E : post_api_chat env req_body w
              = (Ok (json 400 (obj [("error", str "Message is required")])), w)).
  { destruct H as [H|H];
      exact (post_api_chat_no_message env w req_body _ H eq_refl). }
  split; [exact E|]. now rewrite E.
Qed.

Lemma chat_requires_message_witness :
  post_api_chat stub_env (obj []) fresh_world
  = (Ok (json 400 (obj [("error", str "Message is required")])), fresh_world)
  /\ trace (post_api_chat stub_env (obj []) fresh_world).2 = trace fresh_world.
Proof.
  apply (chat_requires_message stub_env fresh_world (obj [])).
  left. reflexivity.
Defined.

(** C9. The systemMessage of a chat request has no influence: two bodies
    that agree on every other field get the same response and leave the
    same world, so the same calls with the same payloads went out. *)
Theorem systemMessage_ignored (env : Env) (w : World) (b1 b2 : value) :
  (forall name, name <> "systemMessage"%string -> get_field b1 name = get_field b2 name) ->
  post_api_chat env b1 w = post_api_chat env b2 w.
Proof.
  intros H. assert (Hm := H "message"%string ltac:(discriminate)).
  unfold post_api_chat. run. rewrite Hm.
  destruct (get_field b2 "message") as [m|e] eqn:E2; [|reflexivity].
  destruct (get_field_total _ _ "systemMessage" _ E2) as [s2 ->].
  destruct (get_field_total _ _ "systemMessage" _ Hm) as [s1 ->].
  reflexivity.
Qed.

Lemma systemMessage_ignored_witness :
  post_api_chat stub_env
    (obj [("systemMessage", str "Answer in French."); ("message", str "Hello")])
    fresh_world
  = post_api_chat stub_env hello_body fresh_world.
Proof.
  apply (systemMessage_ignored stub_env fresh_world).
  intros name Hname.
  exact (get_field_cons_ne "systemMessage" _ [(lit "message", str "Hello")] name Hname).
Defined.



(** C5, as stated, fails: while the provider rejects the creation
    request nothing is cached, and two calls in a row issue two creation
    requests. *)
Lemma ensure_assistant_twice_counterexample :
  creation_requests (trace fresh_world) = 0 /\
  creation_requests
    (trace (getOrCreateAssistant (rejecting_env 500)
              (getOrCreateAssistant (rejecting_env 500) fresh_world).2).2) = 2 /\
  ~ creation_requests
      (trace (getOrCreateAssistant (rejecting_env 500)
                (getOrCreateAssistant (rejecting_env 500) fresh_world).2).2)
    <= creation_requests (trace fresh_world) + 1.
Proof. vm_compute. repeat split. lia. Qed.

(** C5, amended. Once the cached assistant id is set, every later call
    returns it at once, without a call to the outside and whatever
    requests were served in between; so when a first call returns an id,
    the call after it reuses that id and the two calls issue at most one
    creation request. A call whose creation request fails caches nothing:
    it sends the one creation request, leaves the cache as it was, and
    the call after it sends a creation request again. *)
Theorem ensure_assistant_reuses_cache (env : Env) (w : World) :
  (truthy (ASSISTANT_ID w) = true ->
   forall rs,
     getOrCreateAssistant env (serve env rs w)
     = (Ok (ASSISTANT_ID w), serve env rs w)) /\
  (forall id w1,
     getOrCreateAssistant env w = (Ok id, w1) ->
     truthy id = true ->
     getOrCreateAssistant env w1 = (Ok id, w1) /\
     creation_requests (trace (getOrCreateAssistant env w1).2)
     <= creation_requests (trace w) + 1) /\
  (forall e w1,
     getOrCreateAssistant env w = (Throw e, w1) ->
     ASSISTANT_ID w1 = ASSISTANT_ID w /\
     truthy (ASSISTANT_ID w1) = false /\
     trace w1
     = trace w ++ [EvPost (lit "https://api.vapi.ai/assistant") assistant_config
                     (vapi_headers env)] /\
     trace (getOrCreateAssistant env w1).2
     = trace w1 ++ [EvPost (lit "https://api.vapi.ai/assistant") assistant_config
                      (vapi_headers env)] /\
     creation_requests (trace (getOrCreateAssistant env w1).2)
     = creation_requests (trace w) + 2).
Proof.
  split; [|split].
  - intros Hc rs.
    rewrite getOrCreateAssistant_cached; rewrite (serve_keeps_cache env rs w Hc);
      [reflexivity|exact Hc].
  - intros id w1 Hfirst Hid.
    pose proof (getOrCreateAssistant_caches env w w1 id Hfirst) as Hcached.
    pose proof (getOrCreateAssistant_requests env w) as Hcount.
    rewrite Hfirst in Hcount. cbn [snd] in Hcount.
    assert (Hsecond : getOrCreateAssistant env w1 = (Ok id, w1)).
    { rewrite getOrCreateAssistant_cached; rewrite Hcached; [reflexivity|exact Hid]. }
    split; [exact Hsecond|].
    rewrite Hsecond. cbn [snd]. rewrite Hcount.
    destruct (truthy (ASSISTANT_ID w)); lia.
  - intros e w1 Hfirst.
    destruct (truthy (ASSISTANT_ID w)) eqn:Hc.
    { rewrite (getOrCreateAssistant_cached env w Hc) in Hfirst. discriminate. }
    assert (Hfailed : ASSISTANT_ID w1 = ASSISTANT_ID w /\
      trace w1 = trace w ++ [EvPost assistant_url assistant_config (vapi_headers env)]).
    { rewrite (getOrCreateAssistant_create env w Hc) in Hfirst. cbn zeta in Hfirst.
      destruct (http_post env (trace w) assistant_url assistant_config (vapi_headers env))
        as [d|r]; [destruct (get_field d "id"); [discriminate|]|];
        apply run_world in Hfirst; subst w1; split; reflexivity. }
    destruct Hfailed as [Hid Htrace].
    assert (Hc1 : truthy (ASSISTANT_ID w1) = false) by now rewrite Hid.
    assert (Hnext : trace (getOrCreateAssistant env w1).2
      = trace w1 ++ [EvPost assistant_url assistant_config (vapi_headers env)]).
    { rewrite (getOrCreateAssistant_create env w1 Hc1). cbn zeta.
      destruct (http_post env (trace w1) assistant_url assistant_config (vapi_headers env))
        as [d|r]; [destruct (get_field d "id")|]; reflexivity. }
    split; [exact Hid|]. split; [exact Hc1|]. split; [exact Htrace|].
    split; [exact Hnext|].
    pose proof (getOrCreateAssistant_requests env w) as Hcount.
    rewrite Hfirst, Hc in Hcount. cbn [snd] in Hcount.
    rewrite (getOrCreateAssistant_requests env w1), Hc1, Hcount. lia.
Qed.

Lemma ensure_assistant_reuses_cache_witness :
  getOrCreateAssistant stub_env created_world = (Ok (str "asst_1"), created_world) /\
  creation_requests (trace (getOrCreateAssistant stub_env created_world).2) <= 1 /\
  getOrCreateAssistant stub_env
    (serve stub_env [POST_api_chat hello_body; GET_api_health] created_world)
  = (Ok (str "asst_1"),
     serve stub_env [POST_api_chat hello_body; GET_api_health] created_world) /\
  creation_requests
    (trace (getOrCreateAssistant (rejecting_env 500)
              (getOrCreateAssistant (rejecting_env 500) fresh_world).2).2) = 2.
Proof.
  pose (w1 := created_world).
  destruct (ensure_assistant_reuses_cache stub_env fresh_world) as (_ & Hsecond & _).
  destruct (Hsecond (str "asst_1") w1) as [Hreuse Hcount].
  - vm_compute. reflexivity.
  - reflexivity.
  - split; [exact Hreuse|]. split; [exact Hcount|]. split.
    + destruct (ensure_assistant_reuses_cache stub_env w1) as (Hlater & _).
      apply (Hlater eq_refl).
    + destruct (ensure_assistant_reuses_cache (rejecting_env 500) fresh_world)
        as (_ & _ & Hfailed).
      destruct (Hfailed (AxiosError (Some (500%Z, VNull)))
                  (getOrCreateAssistant (rejecting_env 500) fresh_world).2)
        as (_ & _ & _ & _ & Hcount2).
      * vm_compute. reflexivity.
      * exact Hcount2.
Defined.







(** C4. For a text of more than 200 code units the primary tier encodes
    the first 200 of them and nothing else: every GET request of the call
    goes to the TTS URL whose query is the encoding of that prefix (at
    most twelve characters for each of its 200 code units), and any text
    with the same prefix gives the same URL. *)
Theorem tts_query_truncated (env : Env) (s : jsstring) (w : World) :
  200 < length s ->
  length (substring0 200 s) = 200 /\
  forall s',
    substring0 200 s' = substring0 200 s ->
    exists new,
      trace (generateAudio env (VStr s') w).2 = trace w ++ new /\
      forall url h,
        EvGet url h ∈ new ->
        exists enc,
          encodeURIComponent (substring0 200 s) = Some enc /\
          url = tts_url enc /\ h = tts_headers /\ length enc <= 2400.
Proof.
  intros Hlen.
  assert (H200 : length (substring0 200 s) = 200) by (apply substring0_length; lia).
  split; [exact H200|].
  intros s' Hprefix.
  destruct (emits_generateAudio env (VStr s') w) as (new & Htrace & Hcalls).
  exists new. split; [exact Htrace|].
  intros url h Hin.
  rewrite Forall_forall in Hcalls. specialize (Hcalls _ Hin).
  destruct Hcalls as (head & enc & Hhead & Henc & -> & ->).
  cbn [js_substring0] in Hhead.
  assert (Hh : substring0 200 s' = head) by congruence.
  rewrite <- Hh, Hprefix in Henc.
  exists enc. repeat split; [exact Henc|].
  pose proof (encodeURIComponent_length _ _ Henc) as Hbound. lia.
Qed.

Lemma tts_query_truncated_witness :
  200 < length (repeat 0x61%N 200 ++ lit " and then some more") /\
  exists new,
    trace (generateAudio stub_env
             (VStr (repeat 0x61%N 200 ++ lit " and then some more")) fresh_world).2
    = trace fresh_world ++ new /\
    EvGet (tts_url (repeat 0x61%N 200)) tts_headers ∈ new /\
    forall url h, EvGet url h ∈ new -> url = tts_url (repeat 0x61%N 200).
Proof.
  assert (Hlen : 200 < length (repeat 0x61%N 200 ++ lit " and then some more"))
    by (vm_compute; lia).
  split; [exact Hlen|].
  destruct (tts_query_truncated stub_env _ fresh_world Hlen) as [_ Hget].
  destruct (Hget _ eq_refl) as (new & Htrace & Hurls).
  exists new. split; [exact Htrace|]. split.
  - assert (Hrun : trace (generateAudio stub_env
                     (VStr (repeat 0x61%N 200 ++ lit " and then some more"))
                     fresh_world).2
                   = trace fresh_world
                     ++ [EvNow; EvMkdir (audio_dir stub_env);
                         EvGet (tts_url (repeat 0x61%N 200)) tts_headers;
                         EvWrite (path_join (audio_dir stub_env)
                                    (response_name 1700000000000))
                                 (Buffer [0xFF; 0xF3]%N)])
      by (vm_compute; reflexivity).
    rewrite Hrun in Htrace. apply app_inv_head in Htrace. subst new.
    do 2 apply list_elem_of_further. apply list_elem_of_here.
  - intros url h Hin. destruct (Hurls url h Hin) as (enc & Henc & -> & _).
    vm_compute in Henc. injection Henc as <-. reflexivity.
Defined.

(** What the timestamps do give: a file name is the prefix of its tier
    and a clock reading of its call, so while every reading of the clock
    differs from the earlier ones, a call and any later call return
    distinct names. *)
Theorem audio_names_distinct (env : Env) (text1 text2 : value)
    (w1 w1' w2 w2' : World) (n1 n2 : jsstring) :
  clock_advances env ->
  generateAudio env text1 w1 = (Ok n1, w1') ->
  (trace w1' `prefix_of` trace w2) ->
  generateAudio env text2 w2 = (Ok n2, w2') ->
  n1 <> n2.
Proof.
  intros Hclock Hfirst Hlater Hsecond.
  destruct (generateAudio_name env _ _ _ _ Hfirst) as (h1 & _ & Hend1 & Hn1).
  destruct (generateAudio_name env _ _ _ _ Hsecond) as (h2 & Hstart2 & _ & Hn2).
  assert (Hpre : (h1 ++ [EvNow]) `prefix_of` h2).
  { transitivity (trace w1'); [exact Hend1|]. now transitivity (trace w2). }
  assert (Hticks : clock env h1 <> clock env h2).
  { apply Hclock.
    - transitivity (h1 ++ [EvNow]); [now apply prefix_app_r|exact Hpre].
    - intros ->. apply prefix_length in Hpre. rewrite length_app in Hpre.
      simpl in Hpre. lia. }
  destruct Hn1 as [-> | ->], Hn2 as [-> | ->]; intros Heq.
  - now apply response_name_inj in Heq.
  - now apply response_fallback_distinct in Heq.
  - symmetry in Heq. now apply response_fallback_distinct in Heq.
  - now apply fallback_name_inj in Heq.
Qed.

Lemma audio_names_distinct_witness :
  clock_advances stub_env /\
  response_name 1700000000000 <> response_name 1700000000004.
Proof.
  assert (Hclock : clock_advances stub_env).
  { intros h h' [k ->] Hne. cbn [clock stub_env]. rewrite length_app.
    destruct k as [|ev k]; [now rewrite app_nil_r in Hne|]. simpl. lia. }
  split; [exact Hclock|].
  apply (audio_names_distinct stub_env (str "Hi there!") (str "Good bye!")
           fresh_world (generateAudio stub_env (str "Hi there!") fresh_world).2
           (generateAudio stub_env (str "Hi there!") fresh_world).2
           (generateAudio stub_env (str "Good bye!")
              (generateAudio stub_env (str "Hi there!") fresh_world).2).2
           _ _ Hclock).
  - vm_compute. reflexivity.
  - reflexivity.
  - vm_compute. reflexivity.
Defined.

(** C7. The names are unique only as far as the clock tells the calls
    apart: two calls that read the same millisecond, one right after the
    other, return the same file name. *)
Lemma audio_names_collide :
  (generateAudio same_millisecond_env (str "Hi there!") fresh_world).1
  = Ok (response_name 1700000000000) /\
  (generateAudio same_millisecond_env (str "Good bye!")
     (generateAudio same_millisecond_env (str "Hi there!") fresh_world).2).1
  = Ok (response_name 1700000000000).
Proof. split; vm_compute; reflexivity. Qed.


(** ** Further properties of the server *)

Section Frames.

Variable env : Env.

Lemma keeps_lift {A} (R : World -> World -> Prop) (r : result A) :
  (forall w, R w w) -> keeps R (lift r).
Proof. intros Hrefl w. apply Hrefl. Qed.

Lemma keeps_bind {A B} (R : World -> World -> Prop) (m : M A) (k : A -> M B) :
  (forall w1 w2 w3, R w1 w2 -> R w2 w3 -> R w1 w3) ->
  keeps R m -> (forall a, keeps R (k a)) -> keeps R (bind m k).
Proof.
  intros Htrans Hm Hk w. unfold bind. specialize (Hm w).
  destruct (m w) as [[a|e] w1]; cbn [snd] in Hm; [|exact Hm].
  exact (Htrans _ _ _ Hm (Hk a w1)).
Qed.

Lemma keeps_try_catch {A} (R : World -> World -> Prop) (m : M A) (h : exn -> M A) :
  (forall w1 w2 w3, R w1 w2 -> R w2 w3 -> R w1 w3) ->
  keeps R m -> (forall e, keeps R (h e)) -> keeps R (try_catch m h).
Proof.
  intros Htrans Hm Hh w. unfold try_catch. specialize (Hm w).
  destruct (m w) as [[a|e] w1]; cbn [snd] in Hm; [exact Hm|].
  exact (Htrans _ _ _ Hm (Hh e w1)).
Qed.

Lemma frame_refl (w : World) : frame w w.
Proof. repeat split; reflexivity. Qed.

Lemma frame_trans (w1 w2 w3 : World) : frame w1 w2 -> frame w2 w3 -> frame w1 w3.
Proof.
  intros (Ha & Hb & Hc & Hd) (Ha' & Hb' & Hc' & Hd').
  repeat split; [congruence|congruence|set_solver|set_solver].
Qed.

Lemma frame_Date_now : keeps frame (Date_now env).
Proof. intros w. apply (frame_refl w). Qed.

Lemma frame_axios_get url h : keeps frame (axios_get env url h).
Proof.
  intros w. unfold axios_get.
  destruct (http_get env (trace w) url h); apply (frame_refl w).
Qed.

Lemma frame_fs_existsSync path : keeps frame (fs_existsSync path).
Proof. intros w. apply (frame_refl w). Qed.

Lemma frame_fs_mkdirSync path : keeps frame (fs_mkdirSync env path).
Proof.
  intros w. unfold fs_mkdirSync.
  destruct (mkdir_ok env (trace w) path); [|apply (frame_refl w)].
  repeat split; cbn [snd dirs add_dir log]; [reflexivity|set_solver].
Qed.

Lemma frame_fs_writeFileSync path c : keeps frame (fs_writeFileSync env path c).
Proof.
  intros w. unfold fs_writeFileSync.
  destruct (write_ok env (trace w) path c); [|apply (frame_refl w)].
  repeat split; cbn [snd files add_file log]; [|reflexivity].
  rewrite dom_insert. set_solver.
Qed.

Lemma frame_generateAudio (text : value) : keeps frame (generateAudio env text).
Proof.
  unfold generateAudio, tts_tier, demo_tier, fallback_tier.
  repeat first
    [ apply keeps_try_catch; [exact frame_trans| |intros ?]
    | apply keeps_bind; [exact frame_trans| |intros ?]
    | apply keeps_lift; exact frame_refl
    | apply frame_Date_now
    | apply frame_axios_get
    | apply frame_fs_existsSync
    | apply frame_fs_mkdirSync
    | apply frame_fs_writeFileSync
    | match goal with |- keeps _ (if ?b then _ else _) => destruct b end ].
Qed.

Lemma frame_disk_grows (w w' : World) : frame w w' -> disk_grows w w'.
Proof. intros (_ & _ & Hf & Hd). split; assumption. Qed.

Lemma disk_grows_refl (w : World) : disk_grows w w.
Proof. split; reflexivity. Qed.

Lemma disk_grows_trans (w1 w2 w3 : World) :
  disk_grows w1 w2 -> disk_grows w2 w3 -> disk_grows w1 w3.
Proof. intros [Ha Hb] [Ha' Hb']. split; set_solver. Qed.

Lemma disk_grows_getOrCreateAssistant : keeps disk_grows (getOrCreateAssistant env).
Proof.
  intros w. destruct (truthy (ASSISTANT_ID w)) eqn:Hc.
  - rewrite (getOrCreateAssistant_cached env w Hc). apply (disk_grows_refl w).
  - rewrite (getOrCreateAssistant_create env w Hc). cbn zeta.
    destruct (http_post env (trace w) assistant_url assistant_config (vapi_headers env))
      as [d|r]; [destruct (get_field d "id")|]; apply (disk_grows_refl w).
Qed.

Lemma disk_grows_axios_post url data h : keeps disk_grows (axios_post env url data h).
Proof.
  intros w. unfold axios_post.
  destruct (http_post env (trace w) url data h); apply (disk_grows_refl w).
Qed.

Lemma disk_grows_post_api_chat (req_body : value) :
  keeps disk_grows (post_api_chat env req_body).
Proof.
  unfold post_api_chat.
  repeat first
    [ match goal with
      | |- keeps _ (generateAudio _ _) =>
          intros w; apply frame_disk_grows, frame_generateAudio
      | |- keeps _ (getOrCreateAssistant _) => apply disk_grows_getOrCreateAssistant
      | |- keeps _ (if ?b then _ else _) => destruct b
      end
    | apply disk_grows_axios_post
    | apply keeps_lift; exact disk_grows_refl
    | apply keeps_try_catch; [exact disk_grows_trans| |intros ?]
    | apply keeps_bind; [exact disk_grows_trans| |intros ?] ].
Qed.

(** What the routes other than the chat do to the world. *)
Lemma route_other (r : request) (w : World) :
  is_chat r = false ->
  ASSISTANT_ID (route env r w).2 = ASSISTANT_ID w /\
  files (route env r w).2 = files w /\
  dirs (route env r w).2 = dirs w /\
  (trace (route env r w).2 = trace w \/ trace (route env r w).2 = trace w ++ [EvNow]).
Proof.
  destruct r as [|b|b|f|f| |]; cbn [is_chat route]; try discriminate; intros _;
    try (repeat split; auto; fail).
  - unfold post_api_audio_generate, Date_now. run.
    destruct (get_field b "text") as [text|]; [|repeat split; auto].
    destruct (truthy text); cbn [negb snd]; repeat split; auto.
  - unfold get_api_audio.
    destruct (audioFiles w !! f); [repeat split; auto|].
    destruct (files w !! path_join (audio_dir env) f); repeat split; auto.
  - unfold get_static_audio.
    destruct (files w !! path_join (audio_dir env) f); repeat split; auto.
Qed.

Lemma disk_grows_route (r : request) (w : World) : disk_grows w (route env r w).2.
Proof.
  destruct (is_chat r) eqn:E.
  - destruct r; try discriminate. apply disk_grows_post_api_chat.
  - destruct (route_other r w E) as (_ & Hf & Hd & _).
    split; [now rewrite Hf|now rewrite Hd].
Qed.

Lemma serve_disk_grows_aux (rs : list request) (w : World) :
  disk_grows w (serve env rs w).
Proof.
  revert w. induction rs as [|r rs IH]; intros w; [apply disk_grows_refl|].
  cbn [serve]. eapply disk_grows_trans; [apply disk_grows_route|apply IH].
Qed.

End Frames.

(** X1. Audio generation keeps to the disk and the TTS endpoint: it
    leaves the assistant id and the placeholder map as they are, removes
    no file and no directory, and sends nothing to the provider. *)
Theorem generateAudio_frame (env : Env) (text : value) (w : World) :
  frame w (generateAudio env text w).2 /\
  exists new,
    trace (generateAudio env text w).2 = trace w ++ new /\
    Forall (fun ev => is_post ev = false) new.
Proof.
  split; [apply frame_generateAudio|].
  destruct (emits_generateAudio env text w) as (new & Htrace & Hcalls).
  exists new. split; [exact Htrace|].
  eapply Forall_impl; [exact Hcalls|].
  intros [] H; try reflexivity. destruct H.
Qed.

(** X2. No request ever removes a file or a directory: whatever
    sequence of requests the server answers, every file that was on the
    disk is still there. *)
Theorem serve_disk_grows (env : Env) (rs : list request) (w : World) :
  dom (files w) ⊆ dom (files (serve env rs w)) /\
  dirs w ⊆ dirs (serve env rs w).
Proof. apply serve_disk_grows_aux. Qed.

(** X3. Only the chat endpoint reaches the outside and the disk: every
    other route leaves the assistant id, the files and the directories
    as they are and makes no HTTP request; at most it reads the clock. *)
Theorem route_other_frame (env : Env) (r : request) (w : World) :
  is_chat r = false ->
  ASSISTANT_ID (route env r w).2 = ASSISTANT_ID w /\
  files (route env r w).2 = files w /\
  dirs (route env r w).2 = dirs w /\
  (trace (route env r w).2 = trace w \/ trace (route env r w).2 = trace w ++ [EvNow]).
Proof. apply route_other. Qed.

Lemma route_other_frame_witness :
  files (route stub_env (POST_api_audio_generate (obj [("text", str "Hi")]))
           created_world).2 = files created_world /\
  trace (route stub_env (POST_api_audio_generate (obj [("text", str "Hi")]))
           created_world).2 = trace created_world ++ [EvNow].
Proof.
  destruct (route_other_frame stub_env
              (POST_api_audio_generate (obj [("text", str "Hi")])) created_world eq_refl)
    as (_ & Hfiles & _ & _).
  split; [exact Hfiles|]. vm_compute. reflexivity.
Defined.

Section Placeholders.

Variable env : Env.

Lemma audio_response_distinct (a b : N) : audio_name a <> response_name b.
Proof.
  unfold audio_name, response_name. intros H.
  apply (f_equal head) in H. vm_compute in H. discriminate.
Qed.

Lemma audio_fallback_distinct (a b : N) : audio_name a <> fallback_name b.
Proof.
  unfold audio_name, fallback_name. intros H.
  apply (f_equal head) in H. vm_compute in H. discriminate.
Qed.

(** The chat handler is made of steps that keep [R]. *)
Lemma keeps_post_api_chat (R : World -> World -> Prop) (req_body : value) :
  (forall w, R w w) ->
  (forall w1 w2 w3, R w1 w2 -> R w2 w3 -> R w1 w3) ->
  (forall ev w, R w (log ev w)) ->
  (forall v w, R w (set_ASSISTANT_ID v w)) ->
  (forall text, keeps R (generateAudio env text)) ->
  keeps R (post_api_chat env req_body).
Proof.
  intros Hrefl Htrans Hlog Hset Haudio.
  assert (Hassistant : keeps R (getOrCreateAssistant env)).
  { intros w. destruct (truthy (ASSISTANT_ID w)) eqn:Hc.
    - rewrite (getOrCreateAssistant_cached env w Hc). apply Hrefl.
    - rewrite (getOrCreateAssistant_create env w Hc). cbn zeta.
      destruct (http_post env (trace w) assistant_url assistant_config (vapi_headers env))
        as [d|r]; [destruct (get_field d "id")|]; cbn [snd];
        try apply Hlog.
      eapply Htrans; [apply Hlog|apply Hset]. }
  assert (Hpost : forall url data h, keeps R (axios_post env url data h)).
  { intros url data h w. unfold axios_post.
    destruct (http_post env (trace w) url data h); apply Hlog. }
  unfold post_api_chat.
  repeat first
    [ match goal with
      | |- keeps _ (generateAudio _ _) => apply Haudio
      | |- keeps _ (getOrCreateAssistant _) => apply Hassistant
      | |- keeps _ (if ?b then _ else _) => destruct b
      end
    | apply Hpost
    | apply keeps_lift; exact Hrefl
    | apply keeps_try_catch; [exact Htrans| |intros ?]
    | apply keeps_bind; [exact Htrans| |intros ?] ].
Qed.

Lemma post_api_chat_audioFiles (req_body : value) (w : World) :
  audioFiles (post_api_chat env req_body w).2 = audioFiles w.
Proof.
  apply (keeps_post_api_chat (fun w w' => audioFiles w' = audioFiles w)); auto.
  - intros w1 w2 w3 H1 H2. congruence.
  - intros text w0. apply (frame_generateAudio env text w0).
Qed.

Lemma placeholder_names_route (r : request) (w : World) :
  placeholder_names w -> placeholder_names (route env r w).2.
Proof.
  intros Hw. destruct r as [|b|b|f|f| |]; cbn [route]; try exact Hw.
  - unfold placeholder_names. now rewrite post_api_chat_audioFiles.
  - unfold post_api_audio_generate, Date_now. run.
    destruct (get_field b "text") as [text|]; [|exact Hw].
    destruct (truthy text); cbn [negb snd]; [|exact Hw].
    intros k. cbn [audioFiles set_audioFiles log].
    destruct (decide (k = audio_name (clock env (trace w)))) as [->|Hne].
    + eauto.
    + rewrite lookup_insert_ne by congruence. apply Hw.
  - unfold get_api_audio.
    destruct (audioFiles w !! f); [exact Hw|].
    destruct (files w !! path_join (audio_dir env) f); exact Hw.
  - unfold get_static_audio.
    destruct (files w !! path_join (audio_dir env) f); exact Hw.
  - intros k [x Hx]. cbn in Hx. now rewrite lookup_empty in Hx.
Qed.

Lemma placeholder_names_serve (rs : list request) (w : World) :
  placeholder_names w -> placeholder_names (serve env rs w).
Proof.
  revert w. induction rs as [|r rs IH]; intros w Hw; [exact Hw|].
  cbn [serve]. apply IH, placeholder_names_route, Hw.
Qed.

Lemma placeholder_names_boot disk_files disk_dirs :
  placeholder_names (boot disk_files disk_dirs).
Proof. intros k [x Hx]. cbn in Hx. now rewrite lookup_empty in Hx. Qed.

(** The file behind a name that [generateAudio] returns. *)
Lemma generateAudio_file (text : value) (w w' : World) (name : jsstring) :
  generateAudio env text w = (Ok name, w') ->
  exists c,
    files w' !! path_join (audio_dir env) name = Some c /\ produced_by env name c.
Proof.
  assert (Hfallback : forall w3,
    fallback_tier env w3 = (Ok name, w') ->
    exists c, files w' !! path_join (audio_dir env) name = Some c /\
              produced_by env name c).
  { intros w3. rewrite fallback_tier_run. cbn zeta.
    destruct (write_ok env _ _ _); [|discriminate].
    intros H. pose proof (run_world _ _ _ _ H) as <-.
    apply run_response in H. subst name.
    eexists. split; [apply lookup_insert_eq|constructor]. }
  rewrite generateAudio_unfold. cbn zeta.
  destruct (bool_decide (audio_dir env ∈ dirs w) || mkdir_ok env _ _);
    [|apply Hfallback].
  destruct (tts_tier env text _ _ (after_setup env w)) as [[n|e1] w2] eqn:Htts.
  - intros H. pose proof (run_world _ _ _ _ H) as <-.
    apply run_response in H. subst n.
    destruct (tts_tier_ok env _ _ _ _ _ _ Htts) as (-> & h & url & data & Hget & Hfile).
    exists (Buffer data). split; [exact Hfile|]. econstructor. exact Hget.
  - destruct (demo_tier env text _ _ w2) as [[n|e2] w3] eqn:Hdemo; [|apply Hfallback].
    intros H. pose proof (run_world _ _ _ _ H) as <-.
    apply run_response in H. subst n.
    destruct (demo_tier_ok env _ _ _ _ _ Hdemo) as (-> & Hfile).
    exists (Buffer mp3Header). split; [exact Hfile|constructor].
Qed.

(** A generated name is no key of the placeholder map. *)
Lemma generated_not_placeholder (text : value) (w w' : World) (name : jsstring) :
  generateAudio env text w = (Ok name, w') ->
  forall w2, placeholder_names w2 -> audioFiles w2 !! name = None.
Proof.
  intros Hrun w2 Hw2.
  destruct (generateAudio_name env _ _ _ _ Hrun) as (h & _ & _ & Hname).
  destruct (audioFiles w2 !! name) as [x|] eqn:E; [|reflexivity].
  destruct (Hw2 name (ex_intro _ x E)) as [t Ht].
  destruct Hname as [-> | ->]; symmetry in Ht.
  - now apply audio_response_distinct in Ht.
  - now apply audio_fallback_distinct in Ht.
Qed.

End Placeholders.



(** X5. DELETE /api/cleanup clears the placeholders and nothing else:
    the files stay on the disk and the assistant id stays cached, no
    placeholder is left, and afterwards the GET of a name the server has
    handed out (audio_<t>.mp3, response_<t>.mp3 or fallback_<t>.mp3)
    answers from the disk alone: the file when it is there, else 404
    "Audio file not found". *)
Theorem cleanup_keeps_disk (env : Env) (w : World) (filename : jsstring) :
  handed_out filename ->
  files (delete_api_cleanup w).2 = files w /\
  dirs (delete_api_cleanup w).2 = dirs w /\
  ASSISTANT_ID (delete_api_cleanup w).2 = ASSISTANT_ID w /\
  audioFiles (delete_api_cleanup w).2 = ∅ /\
  (get_api_audio env filename (delete_api_cleanup w).2).1
  = match files w !! path_join (audio_dir env) filename with
    | Some c => Ok {| status := 200; body := SendFile c |}
    | None => Ok (json 404 (obj [("error", str "Audio file not found")]))
    end.
Proof.
  intros _. repeat split. unfold get_api_audio, delete_api_cleanup.
  cbn [snd audioFiles files set_audioFiles]. rewrite lookup_empty.
  destruct (files w !! path_join (audio_dir env) filename); reflexivity.
Qed.

(** A placeholder made by POST /api/audio/generate is forgotten by the
    cleanup: the GET of its name then answers 404. *)
Lemma cleanup_keeps_disk_witness :
  (get_api_audio stub_env (audio_name 1700000000000)
     (post_api_audio_generate stub_env (obj [("text", str "Hi there!")]) fresh_world).2).1
  = Ok (json 200 (obj [("message", str "Audio placeholder"); ("text", str "Hi there!")])) /\
  (get_api_audio stub_env (audio_name 1700000000000)
     (delete_api_cleanup
        (post_api_audio_generate stub_env (obj [("text", str "Hi there!")])
           fresh_world).2).2).1
  = Ok (json 404 (obj [("error", str "Audio file not found")])).
Proof.
  split; [vm_compute; reflexivity|].
  destruct (cleanup_keeps_disk stub_env
              (post_api_audio_generate stub_env (obj [("text", str "Hi there!")])
                 fresh_world).2
              (audio_name 1700000000000))
    as (_ & _ & _ & _ & Hget).
  - exists 1700000000000%N. now left.
  - rewrite Hget. vm_compute. reflexivity.
Defined.

(** X6. The audio of a reply can be fetched: in a server started from
    boot, the name that [generateAudio] returns is served by
    GET /api/audio/:filename and by the static route with the file the
    tier wrote, no placeholder stands in its way, and whatever requests
    follow, the name keeps being served with status 200. *)
Theorem generated_audio_served (env : Env) (disk_files : gmap jsstring content)
    (disk_dirs : gset jsstring) (rs rs' : list request)
    (text : value) (name : jsstring) (w' : World) :
  generateAudio env text (serve env rs (boot disk_files disk_dirs)) = (Ok name, w') ->
  (exists c,
     produced_by env name c /\
     get_api_audio env name w' = (Ok {| status := 200; body := SendFile c |}, w') /\
     get_static_audio env name w' = (Ok {| status := 200; body := SendFile c |}, w')) /\
  (exists c',
     (get_api_audio env name (serve env rs' w')).1
     = Ok {| status := 200; body := SendFile c' |}).
Proof.
  intros Hrun.
  set (w := serve env rs (boot disk_files disk_dirs)) in *.
  assert (Hw' : placeholder_names w').
  { pose proof (frame_generateAudio env text w) as (_ & Hmap & _).
    rewrite Hrun in Hmap. cbn [snd] in Hmap.
    unfold placeholder_names. rewrite Hmap.
    apply placeholder_names_serve, placeholder_names_boot. }
  destruct (generateAudio_file env _ _ _ _ Hrun) as (c & Hfile & Hc).
  split.
  - exists c. split; [exact Hc|].
    unfold get_api_audio, get_static_audio.
    rewrite (generated_not_placeholder env _ _ _ _ Hrun w' Hw'), Hfile. split; reflexivity.
  - pose proof (serve_disk_grows_aux env rs' w') as [Hdom _].
    assert (Hin : is_Some (files (serve env rs' w') !! path_join (audio_dir env) name)).
    { apply elem_of_dom, Hdom, elem_of_dom. eauto. }
    destruct Hin as [c' Hc'].
    exists c'. unfold get_api_audio.
    rewrite (generated_not_placeholder env _ _ _ _ Hrun _
               (placeholder_names_serve env rs' w' Hw')), Hc'.
    reflexivity.
Qed.

Lemma generated_audio_served_witness :
  exists c,
    produced_by stub_env (response_name 1700000000000) c /\
    get_api_audio stub_env (response_name 1700000000000)
      (generateAudio stub_env (str "Hi there!") fresh_world).2
    = (Ok {| status := 200; body := SendFile c |},
       (generateAudio stub_env (str "Hi there!") fresh_world).2).
Proof.
  destruct (generated_audio_served stub_env ∅ ∅ [] [] (str "Hi there!")
              (response_name 1700000000000)
              (generateAudio stub_env (str "Hi there!") fresh_world).2)
    as [(c & Hc & Hget & _) _].
  - vm_compute. reflexivity.
  - exists c. split; [exact Hc|exact Hget].
Defined.

Section Requests.

Variable env : Env.

Lemma chat_requests_log (ev : event) (w : World) :
  chat_requests (trace (log ev w))
  = chat_requests (trace w) + (if is_chat_request ev then 1 else 0).
Proof.
  unfold chat_requests. rewrite trace_log, filter_app, length_app.
  f_equal. rewrite filter_cons, filter_nil.
  destruct (is_chat_request ev); reflexivity.
Qed.

Lemma assistant_chat_urls : assistant_url <> chat_url.
Proof. intros H. vm_compute in H. discriminate. Qed.

Lemma creation_is_no_chat data h : is_chat_request (EvPost assistant_url data h) = false.
Proof. cbn [is_chat_request]. apply bool_decide_eq_false_2, assistant_chat_urls. Qed.

Lemma chat_is_no_creation data h : is_creation (EvPost chat_url data h) = false.
Proof.
  cbn [is_creation]. apply bool_decide_eq_false_2.
  intros H. symmetry in H. now apply assistant_chat_urls in H.
Qed.

Lemma no_post_creation_requests (h new : list event) :
  Forall (fun ev => is_post ev = false) new ->
  creation_requests (h ++ new) = creation_requests h.
Proof.
  intros Hnew. unfold creation_requests. rewrite filter_app, length_app.
  induction Hnew as [|ev new Hev _ IH]; [simpl; lia|].
  rewrite filter_cons. destruct ev; try discriminate; cbn [is_creation];
    (destruct (decide (false = true)); [discriminate|exact IH]).
Qed.

Lemma no_post_chat_requests (h new : list event) :
  Forall (fun ev => is_post ev = false) new ->
  chat_requests (h ++ new) = chat_requests h.
Proof.
  intros Hnew. unfold chat_requests. rewrite filter_app, length_app.
  induction Hnew as [|ev new Hev _ IH]; [simpl; lia|].
  rewrite filter_cons. destruct ev; try discriminate; cbn [is_chat_request];
    (destruct (decide (false = true)); [discriminate|exact IH]).
Qed.

Lemma generateAudio_no_post (text : value) (w : World) :
  exists new,
    trace (generateAudio env text w).2 = trace w ++ new /\
    Forall (fun ev => is_post ev = false) new.
Proof.
  destruct (emits_generateAudio env text w) as (new & Htrace & Hcalls).
  exists new. split; [exact Htrace|].
  eapply Forall_impl; [exact Hcalls|].
  intros [] H; try reflexivity. destruct H.
Qed.

Lemma generateAudio_requests (text : value) (w : World) :
  creation_requests (trace (generateAudio env text w).2) = creation_requests (trace w) /\
  chat_requests (trace (generateAudio env text w).2) = chat_requests (trace w).
Proof.
  destruct (generateAudio_no_post text w) as (new & -> & Hnew).
  split; [now apply no_post_creation_requests|now apply no_post_chat_requests].
Qed.

Lemma getOrCreateAssistant_chat_requests (w : World) :
  chat_requests (trace (getOrCreateAssistant env w).2) = chat_requests (trace w).
Proof.
  destruct (truthy (ASSISTANT_ID w)) eqn:Hc.
  - now rewrite (getOrCreateAssistant_cached env w Hc).
  - rewrite (getOrCreateAssistant_create env w Hc). cbn zeta.
    destruct (http_post env (trace w) assistant_url assistant_config (vapi_headers env))
      as [d|r]; [destruct (get_field d "id")|]; cbn [snd];
      rewrite ?trace_set_ASSISTANT_ID, chat_requests_log, creation_is_no_chat; lia.
Qed.

(** The worlds a chat request can end in, and what it sent on the way. *)
Lemma post_api_chat_counts (w : World) (req_body : value) :
  creation_requests (trace (post_api_chat env req_body w).2)
  = creation_requests (trace (getOrCreateAssistant env w).2) /\
  chat_requests (trace (post_api_chat env req_body w).2)
  <= chat_requests (trace w) + 1
  \/ (post_api_chat env req_body w).2 = w.
Proof.
  destruct (get_field req_body "message") as [message|e] eqn:Hm;
    [|right; now rewrite (post_api_chat_bad_body env w req_body e Hm)].
  destruct (truthy message) eqn:Ht;
    [|right; now rewrite (post_api_chat_no_message env w req_body message Hm Ht)].
  left. rewrite (post_api_chat_unfold env w req_body message Hm Ht).
  pose proof (getOrCreateAssistant_chat_requests w) as Hchat.
  destruct (getOrCreateAssistant env w) as [[aid|e] w1]; cbn [snd] in *;
    [|split; [reflexivity|lia]].
  destruct (js_trim message) as [input|e]; [|split; [reflexivity|cbn [snd]; lia]].
  cbn zeta.
  assert (Hlog : creation_requests
            (trace (log (EvPost chat_url (chat_payload aid input) (vapi_headers env)) w1))
          = creation_requests (trace w1) /\
          chat_requests
            (trace (log (EvPost chat_url (chat_payload aid input) (vapi_headers env)) w1))
          = chat_requests (trace w1) + 1).
  { rewrite creation_requests_log, chat_requests_log, chat_is_no_creation.
    split; [lia|]. cbn [is_chat_request]. now rewrite bool_decide_eq_true_2. }
  destruct Hlog as [Hcreate Hturn].
  destruct (http_post env (trace w1) chat_url _ (vapi_headers env)) as [d|r];
    [|cbn [snd]; split; [exact Hcreate|lia]].
  destruct (nullish d); [cbn [snd]; split; [exact Hcreate|lia]|].
  match goal with |- context [generateAudio env ?t ?x] =>
    pose proof (generateAudio_requests t x) as [Ha Hb];
    destruct (generateAudio env t x) as [[name|err] w3] end;
    cbn [snd] in *; split; lia.
Qed.

(** The cache after a chat request is the cache [getOrCreateAssistant]
    left, or the request never came that far. *)
Lemma post_api_chat_cache (w : World) (req_body : value) :
  ASSISTANT_ID (post_api_chat env req_body w).2
  = ASSISTANT_ID (getOrCreateAssistant env w).2
  \/ (post_api_chat env req_body w).2 = w.
Proof.
  destruct (get_field req_body "message") as [message|e] eqn:Hm;
    [|right; now rewrite (post_api_chat_bad_body env w req_body e Hm)].
  destruct (truthy message) eqn:Ht;
    [|right; now rewrite (post_api_chat_no_message env w req_body message Hm Ht)].
  left. rewrite (post_api_chat_unfold env w req_body message Hm Ht).
  destruct (getOrCreateAssistant env w) as [[aid|e] w1]; [|reflexivity].
  destruct (js_trim message) as [input|e]; [|reflexivity].
  cbn zeta.
  destruct (http_post env (trace w1) chat_url _ (vapi_headers env)) as [d|r];
    [|reflexivity].
  destruct (nullish d); [reflexivity|].
  match goal with |- context [generateAudio env ?t ?x] =>
    pose proof (stable_generateAudio env t x) as Hs;
    destruct (generateAudio env t x) as [[name|err] w3] end;
    exact Hs.
Qed.

Lemma getOrCreateAssistant_id (w : World) :
  id_from_provider env (ASSISTANT_ID w) ->
  id_from_provider env (ASSISTANT_ID (getOrCreateAssistant env w).2).
Proof.
  intros Hw. destruct (truthy (ASSISTANT_ID w)) eqn:Hc.
  - now rewrite (getOrCreateAssistant_cached env w Hc).
  - rewrite (getOrCreateAssistant_create env w Hc). cbn zeta.
    destruct (http_post env (trace w) assistant_url assistant_config (vapi_headers env))
      as [d|r] eqn:Hpost; [|exact Hw].
    destruct (get_field d "id") as [id|e] eqn:Hid; [|exact Hw].
    right. exists (trace w), d. split; [exact Hpost|exact Hid].
Qed.

Lemma route_id (r : request) (w : World) :
  id_from_provider env (ASSISTANT_ID w) ->
  id_from_provider env (ASSISTANT_ID (route env r w).2).
Proof.
  intros Hw. destruct (is_chat r) eqn:E.
  - destruct r; try discriminate. cbn [route].
    destruct (post_api_chat_cache w req_body) as [-> | ->];
      [now apply getOrCreateAssistant_id|exact Hw].
  - now rewrite (route_keeps_cache env r w E).
Qed.

End Requests.

(** X7. The cached assistant id comes from the provider: in a server
    started from boot, after any sequence of requests, the id that
    health and config report is null or the id field of a reply the
    provider gave to the creation request. *)
Theorem assistant_id_from_provider (env : Env) (disk_files : gmap jsstring content)
    (disk_dirs : gset jsstring) (rs : list request) :
  id_from_provider env (ASSISTANT_ID (serve env rs (boot disk_files disk_dirs))).
Proof.
  assert (H : forall w, id_from_provider env (ASSISTANT_ID w) ->
                        id_from_provider env (ASSISTANT_ID (serve env rs w))).
  { induction rs as [|r rs IH]; intros w Hw; [exact Hw|].
    cbn [serve]. apply IH, route_id, Hw. }
  apply H. now left.
Qed.

(** X8. One chat request costs the provider at most one creation
    request and one chat turn, no creation request at all once the id
    is cached, and no chat turn when the assistant could not be had. *)
Theorem chat_request_discipline (env : Env) (w : World) (req_body : value) :
  creation_requests (trace (post_api_chat env req_body w).2)
  <= creation_requests (trace w) + 1 /\
  chat_requests (trace (post_api_chat env req_body w).2)
  <= chat_requests (trace w) + 1 /\
  (truthy (ASSISTANT_ID w) = true ->
   creation_requests (trace (post_api_chat env req_body w).2)
   = creation_requests (trace w)) /\
  (forall e w1,
     getOrCreateAssistant env w = (Throw e, w1) ->
     chat_requests (trace (post_api_chat env req_body w).2) = chat_requests (trace w)).
Proof.
  pose proof (getOrCreateAssistant_requests env w) as Hcreate.
  destruct (post_api_chat_counts env w req_body) as [[Ha Hb] | ->].
  2:{ repeat split; try lia. }
  split; [rewrite Ha, Hcreate; destruct (truthy (ASSISTANT_ID w)); lia|].
  split; [exact Hb|]. split.
  - intros Hc. rewrite Ha, Hcreate, Hc. lia.
  - intros e w1 Hthrow.
    destruct (get_field req_body "message") as [message|e'] eqn:Hm;
      [|now rewrite (post_api_chat_bad_body env w req_body e' Hm)].
    destruct (truthy message) eqn:Ht;
      [|now rewrite (post_api_chat_no_message env w req_body message Hm Ht)].
    rewrite (post_api_chat_unfold env w req_body message Hm Ht), Hthrow. cbn [snd].
    pose proof (getOrCreateAssistant_chat_requests env w) as Hchat.
    now rewrite Hthrow in Hchat.
Qed.

(** X9. When the provider rejects a call, the chat request stops there:
    nothing is asked of the TTS endpoint and nothing is written, the disk
    is as it was, and only the POST requests to the provider went out. *)
Theorem chat_failure_no_audio (env : Env) (w : World) (req_body message : value)
    (r : option (Z * value)) :
  get_field req_body "message" = Ok message ->
  truthy message = true ->
  provider_rejects env w message r ->
  files (post_api_chat env req_body w).2 = files w /\
  dirs (post_api_chat env req_body w).2 = dirs w /\
  exists new,
    trace (post_api_chat env req_body w).2 = trace w ++ new /\
    Forall (fun ev => is_post ev = true) new.
Proof.
  intros Hm Ht. unfold provider_rejects.
  rewrite (post_api_chat_unfold env w req_body message Hm Ht).
  assert (Hassistant :
    files (getOrCreateAssistant env w).2 = files w /\
    dirs (getOrCreateAssistant env w).2 = dirs w /\
    exists new, trace (getOrCreateAssistant env w).2 = trace w ++ new /\
                Forall (fun ev => is_post ev = true) new).
  { destruct (truthy (ASSISTANT_ID w)) eqn:Hc.
    - rewrite (getOrCreateAssistant_cached env w Hc). repeat split.
      exists []. now rewrite app_nil_r.
    - rewrite (getOrCreateAssistant_create env w Hc). cbn zeta.
      destruct (http_post env (trace w) assistant_url assistant_config (vapi_headers env))
        as [d|r']; [destruct (get_field d "id")|]; repeat split;
        eexists [_]; split; try reflexivity; repeat constructor. }
  destruct (getOrCreateAssistant env w) as [[aid|e] w1]; cbn [snd] in Hassistant.
  2:{ intros _. exact Hassistant. }
  intros (input & -> & Hrej). cbn zeta. rewrite Hrej. cbn [snd files dirs log trace].
  destruct Hassistant as (Hf & Hd & new & Hnew & Hposts).
  split; [exact Hf|]. split; [exact Hd|].
  exists (new ++ [EvPost chat_url (chat_payload aid input) (vapi_headers env)]).
  rewrite Hnew, app_assoc. split; [reflexivity|].
  apply Forall_app. split; [exact Hposts|repeat constructor].
Qed.

Lemma chat_failure_no_audio_witness :
  files (post_api_chat (rejecting_env 429) hello_body fresh_world).2 = files fresh_world /\
  exists new,
    trace (post_api_chat (rejecting_env 429) hello_body fresh_world).2
    = trace fresh_world ++ new /\
    Forall (fun ev => is_post ev = true) new.
Proof.
  destruct (chat_failure_no_audio (rejecting_env 429) fresh_world hello_body (str "Hello")
              (Some (429%Z, VNull)) eq_refl eq_refl) as (Hfiles & _ & Hnew).
  - vm_compute. reflexivity.
  - split; [exact Hfiles|exact Hnew].
Defined.

(** X10. A message that is present but is no string (a number, true,
    an array, an object) passes the check and gets the assistant created,
    but [message.trim()] throws before any chat turn is sent: the world
    is the one [getOrCreateAssistant] left, the answer is 200 with a null
    audioFileName, and with the assistant at hand it is the text of the
    technical difficulties. *)
Theorem chat_non_string_message (env : Env) (w : World) (req_body message : value) :
  get_field req_body "message" = Ok message ->
  truthy message = true ->
  (forall s, message <> VStr s) ->
  (post_api_chat env req_body w).2 = (getOrCreateAssistant env w).2 /\
  chat_requests (trace (post_api_chat env req_body w).2) = chat_requests (trace w) /\
  exists resp,
    (post_api_chat env req_body w).1 = Ok resp /\
    status resp = 200%Z /\
    field_of resp "audioFileName" = VNull /\
    (forall id w1,
       getOrCreateAssistant env w = (Ok id, w1) ->
       field_of resp "response" = difficulties_text).
Proof.
  intros Hm Ht Hstr.
  assert (Htrim : js_trim message = Throw TypeError).
  { destruct message; try reflexivity. now destruct (Hstr s). }
  rewrite (post_api_chat_unfold env w req_body message Hm Ht), Htrim.
  pose proof (getOrCreateAssistant_chat_requests env w) as Hchat.
  destruct (getOrCreateAssistant env w) as [[aid|e] w1]; cbn [snd fst] in *.
  - split; [reflexivity|]. split; [exact Hchat|].
    eexists. split; [reflexivity|]. repeat split.
  - split; [reflexivity|]. split; [exact Hchat|].
    eexists. split; [reflexivity|]. rewrite chat_error_response_eq.
    repeat split. discriminate.
Qed.

Lemma chat_non_string_message_witness :
  (post_api_chat stub_env (obj [("message", VNum 42)]) fresh_world).2 = created_world /\
  exists resp,
    (post_api_chat stub_env (obj [("message", VNum 42)]) fresh_world).1 = Ok resp /\
    status resp = 200%Z /\
    field_of resp "audioFileName" = VNull /\
    field_of resp "response" = difficulties_text.
Proof.
  destruct (chat_non_string_message stub_env fresh_world (obj [("message", VNum 42)])
              (VNum 42) eq_refl eq_refl) as (Hworld & _ & resp & Hresp & Hs & Ha & Ht).
  - discriminate.
  - split; [exact Hworld|]. exists resp. repeat split; auto.
    apply (Ht (str "asst_1") created_world). vm_compute. reflexivity.
Defined.

(** X11. What is spoken is what is returned: every request a chat call
    makes to the TTS endpoint goes to the URL
    https://translate.google.com/translate_tts?ie=UTF-8&q=<q>&tl=en&client=tw-ob
    where <q> is the encoding of the first 200 code units of the very
    text the call returns in its response field. *)
Theorem chat_speaks_its_reply (env : Env) (w w' : World)
    (req_body message : value) (resp : Response) :
  get_field req_body "message" = Ok message ->
  truthy message = true ->
  post_api_chat env req_body w = (Ok resp, w') ->
  exists new,
    trace w' = trace w ++ new /\
    forall url h,
      EvGet url h ∈ new ->
      exists text enc,
        field_of resp "response" = VStr text /\
        encodeURIComponent (substring0 200 text) = Some enc /\
        url = lit "https://translate.google.com/translate_tts?ie=UTF-8&q="
              ++ enc ++ lit "&tl=en&client=tw-ob".
Proof.
  intros Hm Ht. rewrite (post_api_chat_unfold env w req_body message Hm Ht).
  destruct (emits_getOrCreateAssistant env (fun ev => is_get ev = false) eq_refl w)
    as (new1 & Htrace1 & Hnew1).
  assert (Hnone : forall (new : list event) url h,
    Forall (fun ev => is_get ev = false) new -> EvGet url h ∈ new ->
    exists text enc, field_of resp "response" = VStr text /\
      encodeURIComponent (substring0 200 text) = Some enc /\
      url = lit "https://translate.google.com/translate_tts?ie=UTF-8&q="
            ++ enc ++ lit "&tl=en&client=tw-ob").
  { intros new url h Hall Hin. rewrite Forall_forall in Hall.
    specialize (Hall _ Hin). discriminate. }
  destruct (getOrCreateAssistant env w) as [[aid|e] w1]; cbn [snd] in Htrace1.
  2:{ intros H. apply run_world in H. subst w'. exists new1. split; [exact Htrace1|].
      intros url h. now apply Hnone. }
  destruct (js_trim message) as [input|e].
  2:{ intros H. apply run_world in H. subst w'. exists new1. split; [exact Htrace1|].
      intros url h. now apply Hnone. }
  cbn zeta.
  set (ev := EvPost chat_url (chat_payload aid input) (vapi_headers env)).
  assert (Hposts : trace (log ev w1) = trace w ++ (new1 ++ [ev]) /\
                   Forall (fun ev => is_get ev = false) (new1 ++ [ev])).
  { rewrite trace_log, Htrace1, app_assoc. split; [reflexivity|].
    apply Forall_app. split; [exact Hnew1|repeat constructor]. }
  destruct Hposts as [Htrace2 Hnew2].
  destruct (http_post env (trace w1) chat_url (chat_payload aid input) (vapi_headers env))
    as [d|r].
  2:{ intros H. apply run_world in H. subst w'. exists (new1 ++ [ev]).
      split; [exact Htrace2|]. intros url h. now apply Hnone. }
  destruct (nullish d).
  { intros H. apply run_world in H. subst w'. exists (new1 ++ [ev]).
    split; [exact Htrace2|]. intros url h. now apply Hnone. }
  destruct (emits_generateAudio env (reply_text d) (log ev w1)) as (new3 & Htrace3 & Hnew3).
  assert (Hend : forall a, resp = success_response d a ->
    forall url h, EvGet url h ∈ (new1 ++ [ev]) ++ new3 ->
    exists text enc, field_of resp "response" = VStr text /\
      encodeURIComponent (substring0 200 text) = Some enc /\
      url = lit "https://translate.google.com/translate_tts?ie=UTF-8&q="
            ++ enc ++ lit "&tl=en&client=tw-ob").
  { intros a -> url h [Hin|Hin]%elem_of_app;
      [exact (Hnone (new1 ++ [ev]) url h Hnew2 Hin)|].
    rewrite Forall_forall in Hnew3. specialize (Hnew3 _ Hin).
    destruct Hnew3 as (head & enc & Hhead & Henc & -> & _).
    assert (Hfield : field_of (success_response d a) "response" = reply_text d)
      by reflexivity.
    rewrite Hfield.
    destruct (reply_text d) as [| | | | |text| |]; try discriminate Hhead.
    exists text, enc. cbn [js_substring0] in Hhead.
    assert (Hh : substring0 200 text = head) by congruence.
    rewrite Hh. split; [reflexivity|]. split; [exact Henc|reflexivity]. }
  destruct (generateAudio env (reply_text d) (log ev w1)) as [[name|err] w3];
    cbn [snd] in Htrace3; intros H;
    pose proof (run_world _ _ _ _ H) as <-; apply run_response in H;
    (exists ((new1 ++ [ev]) ++ new3));
    (split; [rewrite Htrace3, Htrace2, <- !app_assoc; reflexivity|]);
    eapply Hend; eauto.
Qed.

Lemma chat_speaks_its_reply_witness :
  exists new,
    field_of (success_response stub_chat_reply (VStr (response_name 1700000000002)))
      "response" = str "Hi there!" /\
    trace (post_api_chat stub_env hello_body fresh_world).2 = trace fresh_world ++ new /\
    forall url h,
      EvGet url h ∈ new ->
      url = lit "https://translate.google.com/translate_tts?ie=UTF-8&q=Hi%20there!&tl=en&client=tw-ob".
Proof.
  destruct (chat_speaks_its_reply stub_env fresh_world
              (post_api_chat stub_env hello_body fresh_world).2 hello_body (str "Hello")
              (success_response stub_chat_reply (VStr (response_name 1700000000002))))
    as (new & Htrace & Hget).
  - reflexivity.
  - reflexivity.
  - vm_compute. reflexivity.
  - exists new. split; [reflexivity|]. split; [exact Htrace|].
    intros url h Hin. destruct (Hget url h Hin) as (text & enc & Htext & Henc & ->).
    vm_compute in Htext. injection Htext as <-.
    vm_compute in Henc. injection Henc as <-. reflexivity.
Defined.

Section Encoding.

Lemma hex_digit_safe (d : N) : (d < 16)%N -> uri_unreserved (hex_digit d) = true.
Proof.
  intros H.
  assert (Hd : In d [0; 1; 2; 3; 4; 5; 6; 7; 8; 9; 10; 11; 12; 13; 14; 15]%N).
  { simpl. lia. }
  simpl in Hd. decompose [or] Hd; subst; try reflexivity. contradiction.
Qed.

Lemma percent_safe (b : N) :
  (b < 256)%N -> Forall (fun c => uri_safe c = true) (percent b).
Proof.
  intros H. unfold percent. repeat constructor; unfold uri_safe.
  - rewrite hex_digit_safe; [reflexivity|].
    apply N.Div0.div_lt_upper_bound. lia.
  - rewrite hex_digit_safe; [reflexivity|].
    apply N.mod_upper_bound. lia.
Qed.

Lemma utf8_octets (cp : N) :
  (cp < 0x110000)%N -> Forall (fun b => (b < 256)%N) (utf8 cp).
Proof.
  intros H. unfold utf8.
  pose proof (N.mod_upper_bound cp 64 ltac:(lia)).
  pose proof (N.mod_upper_bound (cp / 64) 64 ltac:(lia)).
  pose proof (N.mod_upper_bound (cp / 4096) 64 ltac:(lia)).
  destruct (cp <? 0x80)%N eqn:E1; [apply N.ltb_lt in E1; repeat constructor; lia|].
  destruct (cp <? 0x800)%N eqn:E2.
  { apply N.ltb_lt in E2.
    pose proof (N.Div0.div_lt_upper_bound cp 64 32 ltac:(lia)).
    repeat constructor; lia. }
  destruct (cp <? 0x10000)%N eqn:E3.
  { apply N.ltb_lt in E3.
    pose proof (N.Div0.div_lt_upper_bound cp 4096 16 ltac:(lia)).
    repeat constructor; lia. }
  pose proof (N.Div0.div_lt_upper_bound cp 262144 5 ltac:(lia)).
  repeat constructor; lia.
Qed.

Lemma percent_encode_safe (cp : N) :
  (cp < 0x110000)%N -> Forall (fun c => uri_safe c = true) (percent_encode cp).
Proof.
  intros H. unfold percent_encode.
  induction (utf8_octets cp H) as [|b l Hb _ IH]; [constructor|].
  cbn [map concat]. apply Forall_app. split; [now apply percent_safe|exact IH].
Qed.

(** The encoding of a string holds unreserved characters and percent
    signs only. *)
Lemma encodeURIComponent_safe (s e : jsstring) :
  utf16 s -> encodeURIComponent s = Some e -> Forall (fun c => uri_safe c = true) e.
Proof.
  assert (H : forall s : jsstring,
    (forall e, utf16 s -> encodeURIComponent s = Some e ->
               Forall (fun c => uri_safe c = true) e) /\
    (forall c e, utf16 (c :: s) -> encodeURIComponent (c :: s) = Some e ->
                 Forall (fun c => uri_safe c = true) e)).
  { clear. induction s as [|d s [IH1 IH2]].
    - split; [intros e _ [= <-]; constructor|].
      intros c e Hs. apply Forall_cons in Hs as [Hc _].
      rewrite encodeURIComponent_cons.
      destruct (uri_unreserved c) eqn:Eu.
      + simpl. intros [= <-]. repeat constructor. unfold uri_safe. now rewrite Eu.
      + destruct (is_trail_surrogate c); [discriminate|].
        destruct (is_lead_surrogate c); [discriminate|].
        simpl. intros [= <-]. rewrite app_nil_r. apply percent_encode_safe. lia.
    - split; [exact (IH2 d)|].
      intros c e Hs. apply Forall_cons in Hs as [Hc Hds].
      pose proof Hds as Hds'. apply Forall_cons in Hds' as [Hd Hs].
      rewrite (encodeURIComponent_cons c (d :: s)).
      destruct (uri_unreserved c) eqn:Eu.
      + destruct (encodeURIComponent (d :: s)) as [e'|] eqn:E; simpl; [|discriminate].
        intros [= <-]. constructor; [unfold uri_safe; now rewrite Eu|].
        now apply (IH2 d).
      + destruct (is_trail_surrogate c); [discriminate|].
        destruct (is_lead_surrogate c) eqn:El.
        * destruct (is_trail_surrogate d) eqn:Et; [|discriminate].
          destruct (encodeURIComponent s) as [e'|] eqn:E; simpl; [|discriminate].
          intros [= <-]. apply Forall_app. split; [|now apply IH1].
          apply percent_encode_safe.
          unfold is_lead_surrogate, is_trail_surrogate, in_range in *.
          apply andb_prop in El as [El1 El2]. apply andb_prop in Et as [Et1 Et2].
          apply N.leb_le in El1, El2, Et1, Et2. lia.
        * destruct (encodeURIComponent (d :: s)) as [e'|] eqn:E; simpl; [|discriminate].
          intros [= <-]. apply Forall_app. split; [|now apply (IH2 d)].
          apply percent_encode_safe. lia. }
  apply H.
Qed.

(** A string of unreserved characters is its own encoding. *)
Lemma encodeURIComponent_unreserved (s : jsstring) :
  forallb uri_unreserved s = true -> encodeURIComponent s = Some s.
Proof.
  induction s as [|c s IH]; [reflexivity|].
  cbn [forallb]. intros [Hc Hs]%andb_prop.
  rewrite encodeURIComponent_cons, Hc, (IH Hs). reflexivity.
Qed.

End Encoding.

(** X13. The check of the message is a truthiness check: a message that
    is missing, null, false, 0 or empty is answered 400 with the world
    untouched; any other message is answered 200, with an audioFileName
    that is null or a string. *)
Theorem chat_answer_shape (env : Env) (w : World) (req_body message : value) :
  get_field req_body "message" = Ok message ->
  exists resp w',
    post_api_chat env req_body w = (Ok resp, w') /\
    if truthy message then
      status resp = 200%Z /\
      (field_of resp "audioFileName" = VNull \/
       exists name, field_of resp "audioFileName" = VStr name)
    else
      status resp = 400%Z /\ w' = w /\
      field_of resp "error" = str "Message is required".
Proof.
  intros Hm. destruct (truthy message) eqn:Ht.
  2:{ rewrite (post_api_chat_no_message env w req_body message Hm Ht).
      eexists _, _. split; [reflexivity|]. repeat split. }
  rewrite (post_api_chat_unfold env w req_body message Hm Ht).
  assert (He : forall e, status (chat_error_response e) = 200%Z /\
    (field_of (chat_error_response e) "audioFileName" = VNull \/
     exists name, field_of (chat_error_response e) "audioFileName" = VStr name)).
  { intros e. rewrite chat_error_response_eq. split; [reflexivity|now left]. }
  destruct (getOrCreateAssistant env w) as [[aid|e] w1]; [|eauto].
  destruct (js_trim message) as [input|e]; [|eauto].
  cbn zeta.
  destruct (http_post env (trace w1) chat_url _ (vapi_headers env)) as [d|r]; [|eauto].
  destruct (nullish d); [eauto|].
  destruct (generateAudio env (reply_text d) _) as [[name|err] w3];
    eexists _, _; (split; [reflexivity|]); (split; [reflexivity|]);
    [right; now exists name|now left].
Qed.

Lemma chat_answer_shape_witness :
  exists resp,
    post_api_chat stub_env (obj [("message", VNum 0)]) created_world
    = (Ok resp, created_world) /\
    status resp = 400%Z /\
    field_of resp "error" = str "Message is required".
Proof.
  destruct (chat_answer_shape stub_env created_world (obj [("message", VNum 0)]) (VNum 0)
              eq_refl) as (resp & w' & Hrun & Hshape).
  cbn in Hshape. destruct Hshape as (Hs & -> & Herr).
  exists resp. split; [exact Hrun|]. split; [exact Hs|exact Herr].
Defined.


(** X15. When the TTS endpoint answers no request and the disk works,
    the demo tier takes over for every text that has a string form:
    [generateAudio] returns the name response_<now>.mp3, the file under
    it holds the 28 bytes FF FB 90 00 and 24 zeros, and a companion file
    response_text_<t>.txt keeps the text that should have been spoken. *)
Theorem demo_tier_when_tts_down (env : Env) (text : value) (w : World) :
  disk_accepts env ->
  tts_down env ->
  to_string_throws text = false ->
  exists t2 generated w',
    generateAudio env text w
    = (Ok (lit "response_" ++ number_to_string (clock env (trace w)) ++ lit ".mp3"), w') /\
    files w' !! path_join (audio_dir env)
                  (lit "response_" ++ number_to_string (clock env (trace w)) ++ lit ".mp3")
    = Some (Buffer ([0xFF; 0xFB; 0x90; 0x00]%N ++ repeat 0%N 24)) /\
    files w' !! path_join (audio_dir env)
                  (lit "response_text_" ++ number_to_string t2 ++ lit ".txt")
    = Some (SpokenText text generated).
Proof.
  intros Hdisk Hdown Hstring.
  exact (generateAudio_secondary env text w Hdown Hdisk Hstring).
Qed.

Lemma demo_tier_when_tts_down_witness :
  exists t2 generated w',
    generateAudio tts_down_env (str "Hi there!") fresh_world
    = (Ok (lit "response_1700000000000.mp3"), w') /\
    files w' !! lit "/srv/server/public/audio/response_1700000000000.mp3"
    = Some (Buffer ([0xFF; 0xFB; 0x90; 0x00]%N ++ repeat 0%N 24)) /\
    files w' !! path_join (audio_dir tts_down_env)
                  (lit "response_text_" ++ number_to_string t2 ++ lit ".txt")
    = Some (SpokenText (str "Hi there!") generated).
Proof.
  apply (demo_tier_when_tts_down tts_down_env (str "Hi there!") fresh_world).
  - split; intros; reflexivity.
  - intros h url hd. exists None. reflexivity.
  - reflexivity.
Defined.

(** X16. A text that cannot be encoded asks nothing of the TTS
    endpoint: when the text is no string, or when the cut at 200 code
    units leaves an unpaired surrogate, [generateAudio] sends no GET
    request at all. *)
Theorem no_tts_request_without_encoding (env : Env) (text : value) (w : World) :
  (forall head, js_substring0 text 200 = Ok head -> encodeURIComponent head = None) ->
  exists new,
    trace (generateAudio env text w).2 = trace w ++ new /\
    Forall (fun ev => is_get ev = false) new.
Proof.
  intros Hnone.
  destruct (emits_generateAudio env text w) as (new & Htrace & Hcalls).
  exists new. split; [exact Htrace|].
  eapply Forall_impl; [exact Hcalls|].
  intros [] H; try reflexivity.
  destruct H as (head & enc & Hhead & Henc & _).
  rewrite (Hnone head Hhead) in Henc. discriminate.
Qed.

Lemma no_tts_request_without_encoding_witness :
  length split_pair_text = 201 /\
  encodeURIComponent split_pair_text <> None /\
  exists new,
    trace (generateAudio stub_env (VStr split_pair_text) fresh_world).2
    = trace fresh_world ++ new /\
    Forall (fun ev => is_get ev = false) new.
Proof.
  split; [reflexivity|]. split; [vm_compute; discriminate|].
  apply (no_tts_request_without_encoding stub_env (VStr split_pair_text) fresh_world).
  intros head [= <-]. vm_compute. reflexivity.
Defined.

(** X17. The text cannot reach the other parameters of the TTS URL:
    for a text of 16-bit code units, the query of every GET request of
    [generateAudio] holds unreserved characters and percent signs only,
    so no ampersand, equals sign, hash or question mark of the text gets
    into the URL unescaped. *)
Theorem tts_url_injection_free (env : Env) (s : jsstring) (w : World) :
  utf16 s ->
  exists new,
    trace (generateAudio env (VStr s) w).2 = trace w ++ new /\
    forall url h,
      EvGet url h ∈ new ->
      exists enc,
        url = tts_url enc /\
        Forall (fun c => uri_safe c = true) enc /\
        (0x26%N ∉ enc) /\ (0x3D%N ∉ enc) /\ (0x23%N ∉ enc) /\ (0x3F%N ∉ enc).
Proof.
  intros Hs.
  destruct (emits_generateAudio env (VStr s) w) as (new & Htrace & Hcalls).
  exists new. split; [exact Htrace|].
  intros url h Hin. rewrite Forall_forall in Hcalls. specialize (Hcalls _ Hin).
  destruct Hcalls as (head & enc & Hhead & Henc & -> & _).
  cbn [js_substring0] in Hhead.
  assert (Hh : utf16 head).
  { assert (E : substring0 200 s = head) by congruence. subst head.
    unfold utf16, substring0. now apply Forall_take. }
  pose proof (encodeURIComponent_safe head enc Hh Henc) as Hsafe.
  exists enc. split; [reflexivity|]. split; [exact Hsafe|].
  rewrite Forall_forall in Hsafe.
  repeat split; intros Hc; specialize (Hsafe _ Hc); discriminate.
Qed.

Lemma tts_url_injection_free_witness :
  encodeURIComponent (lit "x&tl=fr#?") = Some (lit "x%26tl%3Dfr%23%3F") /\
  exists new,
    trace (generateAudio stub_env (str "x&tl=fr#?") fresh_world).2
    = trace fresh_world ++ new /\
    forall url h, EvGet url h ∈ new -> exists enc, url = tts_url enc /\ (0x26%N ∉ enc).
Proof.
  split; [reflexivity|].
  destruct (tts_url_injection_free stub_env (lit "x&tl=fr#?") fresh_world)
    as (new & Htrace & Hget).
  - unfold utf16. repeat constructor.
  - exists new. split; [exact Htrace|].
    intros url h Hin. destruct (Hget url h Hin) as (enc & -> & _ & Hamp & _).
    exists enc. split; [reflexivity|exact Hamp].
Defined.

(** ** The frontend against the server *)

Section Trim.

Lemma trimStart_fixed (s : jsstring) :
  (forall c, head s = Some c -> is_js_space c = false) -> trimStart s = s.
Proof.
  destruct s as [|c s]; [reflexivity|]. intros H. cbn [trimStart].
  now rewrite (H c eq_refl).
Qed.

Lemma trimStart_head (s : jsstring) (c : N) :
  head (trimStart s) = Some c -> is_js_space c = false.
Proof.
  induction s as [|d s IH]; [discriminate|]. cbn [trimStart].
  destruct (is_js_space d) eqn:E; [exact IH|]. now intros [= <-].
Qed.

Lemma trimStart_suffix (s : jsstring) : exists sp, s = sp ++ trimStart s.
Proof.
  induction s as [|d s [sp IH]]; [now exists []|]. cbn [trimStart].
  destruct (is_js_space d); [|now exists []].
  exists (d :: sp). cbn. now f_equal.
Qed.

Lemma trimEnd_prefix (s : jsstring) : exists sp, s = trimEnd s ++ sp.
Proof.
  unfold trimEnd. destruct (trimStart_suffix (reverse s)) as [sp Hsp].
  exists (reverse sp). rewrite <- reverse_app, <- Hsp. now rewrite reverse_involutive.
Qed.

Lemma trim_head (s : jsstring) (c : N) :
  head (trim s) = Some c -> is_js_space c = false.
Proof.
  unfold trim. destruct (trimEnd_prefix (trimStart s)) as [sp Hsp].
  intros Hc. apply (trimStart_head s). rewrite Hsp.
  destruct (trimEnd (trimStart s)); [discriminate|exact Hc].
Qed.

Lemma trim_last (s : jsstring) (c : N) :
  last (trim s) = Some c -> is_js_space c = false.
Proof.
  unfold trim, trimEnd. rewrite last_reverse. apply trimStart_head.
Qed.

(** Trimming a trimmed string changes nothing. *)
Lemma trim_idempotent (s : jsstring) : trim (trim s) = trim s.
Proof.
  assert (H1 : trimStart (trim s) = trim s) by (apply trimStart_fixed, trim_head).
  unfold trim at 1. rewrite H1. unfold trim, trimEnd.
  rewrite reverse_involutive. f_equal.
  apply trimStart_fixed, trimStart_head.
Qed.

End Trim.

Section Client.

Variable env : Env.

Lemma chat_request_message (st : App.State) :
  get_field (wire (App.chat_request st)) "message" = Ok (VStr (trim (App.prompt st))).
Proof. reflexivity. Qed.

Lemma chat_request_truthy (st : App.State) :
  trim (App.prompt st) <> [] -> truthy (VStr (trim (App.prompt st))) = true.
Proof. intros H. cbn [truthy]. now rewrite bool_decide_eq_false_2. Qed.

Lemma response_name_nonempty (t : N) : response_name t <> [].
Proof. unfold response_name. intros H. apply (f_equal head) in H. discriminate. Qed.

Lemma fallback_name_nonempty (t : N) : fallback_name t <> [].
Proof. unfold fallback_name. intros H. apply (f_equal head) in H. discriminate. Qed.

(** The shape of an answer to a request with a message: a truthy
    response field, then an audioFileName that is null or a name. *)
Lemma post_api_chat_cases (w : World) (req_body message : value) :
  get_field req_body "message" = Ok message ->
  truthy message = true ->
  exists x a rest w',
    post_api_chat env req_body w
    = (Ok (json 200 (obj (("response", x) :: ("audioFileName", a) :: rest))), w') /\
    truthy x = true /\
    (a = VNull \/ exists name, a = VStr name /\ name <> []).
Proof.
  intros Hm Ht. rewrite (post_api_chat_unfold env w req_body message Hm Ht).
  assert (He : forall e (w1 : World), exists x a rest w',
    (Ok (chat_error_response e), w1)
    = (Ok (json 200 (obj (("response", x) :: ("audioFileName", a) :: rest))), w') /\
    truthy x = true /\
    (a = VNull \/ exists name, a = VStr name /\ name <> [])).
  { intros e w1. rewrite chat_error_response_eq.
    destruct (failure_response_ok (error_status e)) as (_ & Htruthy & _).
    exists (failure_text (error_status e)), VNull, [], w1.
    split; [reflexivity|]. split; [exact Htruthy|now left]. }
  destruct (getOrCreateAssistant env w) as [[aid|e] w1]; [|apply He].
  destruct (js_trim message) as [input|e]; [|apply He].
  cbn zeta.
  destruct (http_post env (trace w1) chat_url _ (vapi_headers env)) as [d|r]; [|apply He].
  destruct (nullish d); [apply He|].
  destruct (generateAudio env (reply_text d) _) as [[name|err] w3] eqn:Hgen.
  - exists (reply_text d), (VStr name). eexists _, _. split; [reflexivity|].
    split; [apply reply_text_truthy|]. right. exists name. split; [reflexivity|].
    destruct (generateAudio_name env _ _ _ _ Hgen) as (h & _ & _ & [-> | ->]);
      [apply response_name_nonempty|apply fallback_name_nonempty].
  - exists (reply_text d), VNull. eexists _, _. split; [reflexivity|].
    split; [apply reply_text_truthy|now left].
Qed.

(** The two fields the component reads, as they come out of JSON. *)
Lemma received_chat_fields (x a : value) (rest : list (string * value)) :
  truthy x = true ->
  (a = VNull \/ exists name, a = VStr name) ->
  get_field (json_data (obj (("response", x) :: ("audioFileName", a) :: rest))) "response"
  = Ok (wire x) /\
  get_field (json_data (obj (("response", x) :: ("audioFileName", a) :: rest)))
    "audioFileName"
  = Ok a.
Proof.
  intros Hx Ha.
  destruct x as [| |b|q|n|s|l|l]; try discriminate Hx;
    destruct Ha as [-> | [name ->]]; split; reflexivity.
Qed.

(** A submit whose request is resolved with a truthy response field. *)
Lemma handleSubmit_resolved (post : jsstring -> value -> App.outcome) (iso : jsstring)
    (st : App.State) (v text a : value) :
  trim (App.prompt st) <> [] ->
  App.serverStatus st = App.connected ->
  post App.chat_endpoint (App.chat_request st) = App.Resolved v ->
  get_field v "response" = Ok text ->
  get_field v "audioFileName" = Ok a ->
  truthy text = true ->
  App.handleSubmit post iso st =
  (answered st
     {| App.textResponse := text;
        App.audioUrl := if truthy a then Some a else None;
        App.timestamp := iso;
        App.promptLength := length (trim (App.prompt st));
        App.responseLength := App.js_length text;
        App.aiProvider := lit "Vapi AI";
        App.success := true |},
   submitted st, [loading_toast; success_toast]).
Proof.
  intros Hp Hc Hpost Hr Ha Ht. unfold App.handleSubmit.
  rewrite (bool_decide_eq_false_2 _ Hp), Hc. cbn [App.is_connected negb].
  cbv zeta. rewrite Hpost, Hr, Ha, Ht. unfold answered. rewrite Hc. reflexivity.
Qed.

(** A submit whose request is resolved with a falsy response field. *)
Lemma handleSubmit_invalid (post : jsstring -> value -> App.outcome) (iso : jsstring)
    (st : App.State) (v text a : value) :
  trim (App.prompt st) <> [] ->
  App.serverStatus st = App.connected ->
  post App.chat_endpoint (App.chat_request st) = App.Resolved v ->
  get_field v "response" = Ok text ->
  get_field v "audioFileName" = Ok a ->
  truthy text = false ->
  App.handleSubmit post iso st =
  (failed_with st (str "Failed to generate response. Please try again.") App.connected,
   submitted st,
   [loading_toast; App.toast_error (str "Failed to generate response. Please try again.")]).
Proof.
  intros Hp Hc Hpost Hr Ha Ht. unfold App.handleSubmit.
  rewrite (bool_decide_eq_false_2 _ Hp), Hc. cbn [App.is_connected negb].
  cbv zeta. rewrite Hpost, Hr, Ha, Ht. reflexivity.
Qed.

(** A submit whose request is rejected. *)
Lemma handleSubmit_rejected (post : jsstring -> value -> App.outcome) (iso : jsstring)
    (st : App.State) (r : option (Z * value)) (code : option jsstring) :
  trim (App.prompt st) <> [] ->
  App.serverStatus st = App.connected ->
  post App.chat_endpoint (App.chat_request st) = App.Rejected r code ->
  App.handleSubmit post iso st =
  (failed_with st (App.error_message r code).1
     (if (App.error_message r code).2 then App.disconnected else App.serverStatus st),
   submitted st, [loading_toast; App.toast_error (App.error_message r code).1]).
Proof.
  intros Hp Hc Hpost. unfold App.handleSubmit.
  rewrite (bool_decide_eq_false_2 _ Hp), Hc. cbn [App.is_connected negb].
  cbv zeta. rewrite Hpost. now destruct (App.error_message r code).
Qed.

End Client.

(** X18. A submit is refused on the spot when the prompt is blank or the
    health check has not found the server: one error toast is shown, no
    request leaves the browser and the state of the component stays as
    it was. *)
Theorem submit_refused (post : jsstring -> value -> App.outcome) (iso : jsstring)
    (st : App.State) :
  trim (App.prompt st) = [] \/ App.serverStatus st <> App.connected ->
  exists msg, App.handleSubmit post iso st = (st, [], [App.toast_error (VStr msg)]).
Proof.
  intros H. unfold App.handleSubmit.
  destruct (bool_decide (trim (App.prompt st) = [])) eqn:E; [eauto|].
  apply bool_decide_eq_false in E. destruct H as [H|H]; [contradiction|].
  destruct (App.serverStatus st); cbn [App.is_connected negb]; [eauto|contradiction|eauto].
Qed.

Lemma submit_refused_witness :
  exists msg,
    App.handleSubmit (App.chat_backend stub_env fresh_world None) [] starting_app
    = (starting_app, [], [App.toast_error (VStr msg)]).
Proof.
  apply (submit_refused (App.chat_backend stub_env fresh_world None) [] starting_app).
  right. discriminate.
Defined.

(** X19. A submit that reaches this server ends in one of two ways,
    whatever the provider, the TTS endpoint and the disk do. The server
    answers 200; unless its response field is an infinite number, the
    component shows a success: it stores the field as it comes out of
    JSON as its text, clears the prompt and the error, stops loading,
    replaces the loading toast by the success toast, and has an audio URL
    exactly when the server's audioFileName is not null. So the failure
    texts of the server reach the user as successful answers. When the
    field is an infinite number (a content such as 1e999), JSON turns it
    into null and the submit ends in the error "Failed to generate
    response. Please try again." with the prompt kept. *)
Theorem submit_always_answered (env : Env) (w : World) (code : option jsstring)
    (iso : jsstring) (st : App.State) :
  trim (App.prompt st) <> [] ->
  App.serverStatus st = App.connected ->
  exists resp w',
    post_api_chat env (wire (App.chat_request st)) w = (Ok resp, w') /\
    status resp = 200%Z /\
    ((forall negative, field_of resp "response" <> VInf negative) ->
     exists fr,
       App.handleSubmit (App.chat_backend env w code) iso st
       = (answered st fr, submitted st, [loading_toast; success_toast]) /\
       App.textResponse fr = wire (field_of resp "response") /\
       (App.audioUrl fr = None <-> field_of resp "audioFileName" = VNull) /\
       App.promptLength fr = length (trim (App.prompt st))) /\
    (forall negative,
       field_of resp "response" = VInf negative ->
       App.handleSubmit (App.chat_backend env w code) iso st
       = (failed_with st (str "Failed to generate response. Please try again.")
            App.connected,
          submitted st,
          [loading_toast;
           App.toast_error (str "Failed to generate response. Please try again.")])) /\
    (forall text, field_of resp "response" = VStr text ->
                  wire (field_of resp "response") = VStr text).
Proof.
  intros Hp Hc.
  destruct (post_api_chat_cases env w (wire (App.chat_request st)) _
              (chat_request_message st) (chat_request_truthy st Hp))
    as (x & a & rest & w' & Hrun & Hx & Ha).
  set (resp := json 200 (obj (("response", x) :: ("audioFileName", a) :: rest))) in *.
  assert (Hback : App.chat_backend env w code App.chat_endpoint (App.chat_request st)
                  = App.Resolved (json_data
                      (obj (("response", x) :: ("audioFileName", a) :: rest)))).
  { unfold App.chat_backend. now rewrite Hrun. }
  assert (Hfields := received_chat_fields x a rest Hx).
  destruct Hfields as [Hresponse Haudio].
  { destruct Ha as [->|(name & -> & _)]; eauto. }
  assert (Hfx : field_of resp "response" = x) by reflexivity.
  assert (Hfa : field_of resp "audioFileName" = a) by reflexivity.
  exists resp, w'. split; [exact Hrun|]. split; [reflexivity|].
  rewrite Hfx, Hfa. split; [|split].
  - intros Hfinite.
    assert (Ht : truthy (wire x) = true).
    { destruct (truthy_wire x Hx) as [H|[b ->]]; [exact H|].
      now destruct (Hfinite b). }
    eexists. split.
    + exact (handleSubmit_resolved _ iso st _ (wire x) a Hp Hc Hback Hresponse Haudio Ht).
    + cbn [App.textResponse App.audioUrl App.promptLength].
      split; [reflexivity|]. split; [|reflexivity].
      destruct Ha as [->|(name & -> & Hname)]; cbn [truthy].
      * split; reflexivity.
      * rewrite (bool_decide_eq_false_2 _ Hname). cbn [negb]. split; discriminate.
  - intros negative ->.
    exact (handleSubmit_invalid _ iso st _ VNull a Hp Hc Hback Hresponse Haudio eq_refl).
  - intros text ->. reflexivity.
Qed.

Lemma submit_always_answered_witness :
  (exists fr,
     App.handleSubmit (App.chat_backend (rejecting_env 401) fresh_world None) [] ready_app
     = (answered ready_app fr, submitted ready_app, [loading_toast; success_toast]) /\
     App.textResponse fr = auth_issue_text /\
     App.audioUrl fr = None) /\
  App.handleSubmit (App.chat_backend infinite_reply_env fresh_world None) [] ready_app
  = (failed_with ready_app (str "Failed to generate response. Please try again.")
       App.connected,
     submitted ready_app,
     [loading_toast;
      App.toast_error (str "Failed to generate response. Please try again.")]).
Proof.
  split.
  - destruct (submit_always_answered (rejecting_env 401) fresh_world None [] ready_app)
      as (resp & w' & Hrun & _ & Hsuccess & _).
    + vm_compute. discriminate.
    + reflexivity.
    + vm_compute in Hrun. injection Hrun as <- _.
      destruct Hsuccess as (fr & Hsubmit & Htext & Haudio & _); [discriminate|].
      exists fr. split; [exact Hsubmit|]. split; [exact Htext|].
      apply Haudio. reflexivity.
  - destruct (submit_always_answered infinite_reply_env fresh_world None [] ready_app)
      as (resp & w' & Hrun & _ & _ & Hfailure & _).
    + vm_compute. discriminate.
    + reflexivity.
    + vm_compute in Hrun. injection Hrun as <- _.
      apply (Hfailure false). reflexivity.
Defined.

(** X20. What the user typed is what the provider is asked: once the
    assistant is there, the first request of the chat handler for a
    submit goes to https://api.vapi.ai/chat with the body
    {assistantId, input}, where the input is the prompt with its
    surrounding white space removed, trimmed by the component and
    untouched by the second trim of the server. *)
Theorem submit_asks_trimmed_prompt (env : Env) (w w1 : World) (st : App.State)
    (assistantId : value) :
  trim (App.prompt st) <> [] ->
  getOrCreateAssistant env w = (Ok assistantId, w1) ->
  exists new,
    trace (post_api_chat env (wire (App.chat_request st)) w).2
    = trace w1
      ++ EvPost (lit "https://api.vapi.ai/chat")
           (VObj [(lit "assistantId", assistantId);
                  (lit "input", VStr (trim (App.prompt st)))])
           (vapi_headers env)
      :: new.
Proof.
  intros Hp Hassist.
  rewrite (post_api_chat_unfold env w (wire (App.chat_request st)) _
             (chat_request_message st) (chat_request_truthy st Hp)).
  rewrite Hassist. cbn [js_trim]. rewrite trim_idempotent. cbn zeta.
  set (ev := EvPost chat_url (chat_payload assistantId (trim (App.prompt st)))
               (vapi_headers env)).
  destruct (http_post env (trace w1) chat_url _ (vapi_headers env)) as [d|r].
  2:{ exists []. cbn [snd]. apply trace_log. }
  destruct (nullish d).
  { exists []. cbn [snd]. apply trace_log. }
  destruct (emits_generateAudio env (reply_text d) (log ev w1)) as (new & Htrace & _).
  exists new.
  destruct (generateAudio env (reply_text d) (log ev w1)) as [[name|err] w3];
    cbn [snd] in *; rewrite Htrace, trace_log, <- app_assoc; reflexivity.
Qed.

Lemma submit_asks_trimmed_prompt_witness :
  trim (App.prompt ready_app) = lit "Hello" /\
  exists new,
    trace (post_api_chat stub_env (wire (App.chat_request ready_app)) fresh_world).2
    = trace created_world
      ++ EvPost (lit "https://api.vapi.ai/chat")
           (VObj [(lit "assistantId", str "asst_1");
                  (lit "input", VStr (trim (App.prompt ready_app)))])
           (vapi_headers stub_env)
      :: new.
Proof.
  split; [vm_compute; reflexivity|].
  apply (submit_asks_trimmed_prompt stub_env fresh_world created_world ready_app
           (str "asst_1")).
  - vm_compute. discriminate.
  - vm_compute. reflexivity.
Defined.

(** X21. When the request does not reach the server (no response at
    all), the submit ends in an error the user can retry from: the prompt
    is kept, the previous response is gone, loading stops, a non-empty
    message is both stored and shown, and the server is marked as
    disconnected exactly for the codes NETWORK_ERROR and ECONNREFUSED; a
    timeout leaves it connected. *)
Theorem submit_transport_failure (post : jsstring -> value -> App.outcome)
    (iso : jsstring) (st : App.State) (code : option jsstring) :
  trim (App.prompt st) <> [] ->
  App.serverStatus st = App.connected ->
  post App.chat_endpoint (App.chat_request st) = App.Rejected None code ->
  exists msg,
    msg <> [] /\
    App.handleSubmit post iso st
    = (failed_with st (VStr msg)
         (if connection_lost code then App.disconnected else App.connected),
       submitted st, [loading_toast; App.toast_error (VStr msg)]).
Proof.
  intros Hp Hc Hpost.
  rewrite (handleSubmit_rejected post iso st None code Hp Hc Hpost), Hc.
  unfold App.error_message, connection_lost.
  cbn [from_option opt_field get_field truthy fmap option_fmap option_map].
  rewrite !(bool_decide_eq_false_2 (None = Some _)) by discriminate.
  destruct (bool_decide (code = Some (lit "ECONNABORTED"))) eqn:E1.
  { apply bool_decide_eq_true in E1. subst code.
    eexists. split; [|reflexivity]. discriminate. }
  destruct (bool_decide (code = Some (lit "NETWORK_ERROR"))
            || bool_decide (code = Some (lit "ECONNREFUSED")));
    (eexists; split; [|reflexivity]; discriminate).
Qed.

Lemma submit_transport_failure_witness :
  exists msg,
    App.handleSubmit (fun _ _ => App.Rejected None (Some (lit "ECONNREFUSED"))) [] ready_app
    = (failed_with ready_app (VStr msg) App.disconnected,
       submitted ready_app, [loading_toast; App.toast_error (VStr msg)]).
Proof.
  destruct (submit_transport_failure
              (fun _ _ => App.Rejected None (Some (lit "ECONNREFUSED"))) [] ready_app
              (Some (lit "ECONNREFUSED")))
    as (msg & _ & Hsubmit).
  - vm_compute. discriminate.
  - reflexivity.
  - reflexivity.
  - exists msg. exact Hsubmit.
Defined.

(** X22. The health check finds this server and opens the way for a
    submit: whatever the state of the server and the status shown
    before, a health check answered by GET /api/health sets the status to
    connected and shows no toast, and a submit of a prompt that is not
    blank then goes out as one request to the chat endpoint. *)
Theorem health_check_connects (env : Env) (w : World) (code : option jsstring)
    (post : jsstring -> value -> App.outcome) (iso : jsstring) (st : App.State) :
  App.checkServerHealth (App.health_backend env w code) st
  = (App.set_serverStatus App.connected st, []) /\
  (trim (App.prompt st) = [] \/
   (App.handleSubmit post iso (App.set_serverStatus App.connected st)).1.2 = submitted st).
Proof.
  split; [reflexivity|].
  destruct (decide (trim (App.prompt st) = [])) as [Hp|Hp]; [now left|right].
  unfold App.handleSubmit.
  cbn [App.set_serverStatus App.prompt App.serverStatus App.is_connected negb].
  rewrite (bool_decide_eq_false_2 _ Hp). cbv zeta.
  destruct (post App.chat_endpoint _) as [data|r c].
  - destruct (get_field data "response") as [text|e];
      [destruct (get_field data "audioFileName") as [a|e]|]; [destruct (truthy text)| |];
      try reflexivity; now destruct (App.error_message None None).
  - now destruct (App.error_message r c).
Qed.

(** X23. A text that is an object with a toString property of its own
    has no string form, so with a working disk the audio comes from the
    final tier: the primary tier fails before any request, the secondary
    tier writes its 28 bytes under response_<now>.mp3 and then fails on
    the text of the companion file, which is not written, and
    [generateAudio] returns fallback_<t>.mp3 with the 8 bytes of the
    minimal MP3. *)
Theorem object_text_falls_back (env : Env) (fields : list (jsstring * value))
    (v : value) (w : World) :
  disk_accepts env ->
  assoc (lit "toString") fields = Some v ->
  exists t new w',
    generateAudio env (VObj fields) w
    = (Ok (lit "fallback_" ++ number_to_string t ++ lit ".mp3"), w') /\
    files w' !! path_join (audio_dir env)
                  (lit "fallback_" ++ number_to_string t ++ lit ".mp3")
    = Some (Buffer [0xFF; 0xFB; 0x90; 0x00; 0x00; 0x00; 0x00; 0x00]%N) /\
    files w' !! path_join (audio_dir env)
                  (lit "response_" ++ number_to_string (clock env (trace w)) ++ lit ".mp3")
    = Some (Buffer ([0xFF; 0xFB; 0x90; 0x00]%N ++ repeat 0%N 24)) /\
    (forall t2,
       files w' !! path_join (audio_dir env)
                     (lit "response_text_" ++ number_to_string t2 ++ lit ".txt")
       = files w !! path_join (audio_dir env)
                      (lit "response_text_" ++ number_to_string t2 ++ lit ".txt")) /\
    trace w' = trace w ++ new /\
    Forall (fun ev => is_get ev = false) new.
Proof.
  intros [Hwrite Hmkdir] Hown.
  assert (Hthrows : to_string_throws (VObj fields) = true).
  { cbn [to_string_throws]. apply bool_decide_eq_true_2. rewrite Hown. eauto. }
  destruct (emits_generateAudio env (VObj fields) w) as (new & Htrace & Hcalls).
  assert (Hnoget : Forall (fun ev => is_get ev = false) new).
  { eapply Forall_impl; [exact Hcalls|].
    intros [] H; try reflexivity. destruct H as (head & enc & Hhead & _).
    discriminate Hhead. }
  revert Htrace. rewrite generateAudio_unfold. cbn zeta. rewrite Hmkdir, orb_true_r.
  assert (Htts : forall name path w0,
    tts_tier env (VObj fields) name path w0 = (Throw TypeError, w0)) by reflexivity.
  rewrite Htts.
  assert (Hfiles : files (after_setup env w) = files w).
  { unfold after_setup. now destruct (bool_decide (audio_dir env ∈ dirs w)). }
  unfold demo_tier, Date_now, fs_writeFileSync. run. rewrite Hwrite, Hthrows.
  rewrite fallback_tier_run. cbn zeta. rewrite Hwrite. cbn [snd].
  intros Htrace. eexists _, new, _. split; [reflexivity|].
  cbn [files add_file log]. rewrite Hfiles.
  split; [apply lookup_insert_eq|]. split; [|split; [|split; [exact Htrace|exact Hnoget]]].
  - rewrite lookup_insert_ne; [apply lookup_insert_eq|].
    intros H. apply app_inv_head in H. apply (f_equal (drop 1)) in H. cbn [drop lit app] in H.
    apply (f_equal head) in H. discriminate H.
  - intros t2. rewrite !lookup_insert_ne; [reflexivity| |].
    + exact (audio_text_paths_distinct _ _ _).
    + intros H. apply app_inv_head in H. apply (f_equal (drop 1)) in H.
      cbn [drop lit app] in H. apply (f_equal head) in H. discriminate H.
Qed.

Lemma object_text_falls_back_witness :
  exists t new w',
    generateAudio stub_env (obj [("toString", VNum 1)]) fresh_world
    = (Ok (lit "fallback_" ++ number_to_string t ++ lit ".mp3"), w') /\
    files w' !! lit "/srv/server/public/audio/response_1700000000000.mp3"
    = Some (Buffer ([0xFF; 0xFB; 0x90; 0x00]%N ++ repeat 0%N 24)) /\
    trace w' = trace fresh_world ++ new /\
    Forall (fun ev => is_get ev = false) new.
Proof.
  destruct (object_text_falls_back stub_env [(lit "toString", VNum 1)] (VNum 1) fresh_world)
    as (t & new & w' & Hrun & _ & Hdemo & _ & Htrace & Hnoget).
  - split; intros; reflexivity.
  - reflexivity.
  - exists t, new, w'. split; [exact Hrun|]. split; [exact Hdemo|].
    split; [exact Htrace|exact Hnoget].
Defined.
